(** * go-service: the sliding-window anomaly detector of [main.go]

    A shallow embedding of the streaming analytics service: the rolling
    statistics ([calculateAverage], [calculateStandardDeviation]), the
    Redis-backed window ([RPUSH] / [LTRIM] / [LRANGE] on the key
    ["metrics"]), the start-up configuration ([getEnv], [main]) and the
    request handler [handleAnalyze] with its background goroutine.

    Go's [float64] is IEEE 754 binary64; it is embedded as Rocq's primitive
    [float], which is the same format with the same round-to-nearest-even
    operations. *)

From Stdlib Require Import ZArith String List Bool Lia.
From Stdlib Require Import Floats.
Import ListNotations.

(** ** What the statistics use of Go's [math] package and conversions *)

(** [float64(n)] of an [int]: exact up to 2^53 and rounded to nearest even
    above.  A Go [int] that is a length lies in [0, 2^63), where
    [Uint63.of_Z] does not wrap. *)
Definition ofInt (z : Z) : float := PrimFloat.of_uint63 (Uint63.of_Z z).

(** [math.Frexp]: a fraction in [1/2, 1) and a power of two. *)
Definition math_Frexp (f : float) : float * Z := Z.frexp f.

(** [math.Ldexp]: [frac * 2^exp], rounded once. *)
Definition math_Ldexp (frac : float) (exp : Z) : float := Z.ldexp frac exp.

(** The loop of [math.Pow] over the bits of the integer part [i] of the
    exponent: [x1 * 2^xe] runs through the repeated squares of [x], and
    [a1 * 2^ae] collects those of the bits that are set.  [i] is an [int64],
    so 64 rounds exhaust it. *)
Fixpoint powLoop (rounds : nat) (i : Z) (x1 : float) (xe : Z) (a1 : float) (ae : Z)
  : float * Z :=
  match rounds with
  | O => (a1, ae)
  | S rounds =>
      if (i =? 0)%Z then (a1, ae)
      else if ((xe <? - 2 ^ 12) || (2 ^ 12 <? xe))%Z then (a1, (ae + xe)%Z)
      else
        let '(a1, ae) :=
          if Z.odd i then ((a1 * x1)%float, (ae + xe)%Z) else (a1, ae) in
        let x1 := (x1 * x1)%float in
        let xe := (2 * xe)%Z in
        let '(x1, xe) :=
          if (x1 <? 0.5)%float then ((x1 + x1)%float, (xe - 1)%Z) else (x1, xe) in
        powLoop rounds (i / 2)%Z x1 xe a1 ae
  end.

(** [math.Pow(x, 2)], as Go computes it: the special cases that apply to the
    exponent 2 ([x == 1], NaN, zero, infinity), then the fraction of [x]
    squared and rescaled by the doubled exponent.  The result is the rounded
    product [x * x] except when that product is subnormal, where the
    rescaling rounds a second time. *)
Definition Pow2 (x : float) : float :=
  if (x =? 1)%float then 1%float
  else if is_nan x then nan
  else if (x =? 0)%float then 0%float
  else if is_infinity x then infinity
  else
    let '(x1, xe) := math_Frexp x in
    let '(a1, ae) := powLoop 64 2 x1 xe 1%float 0 in
    math_Ldexp a1 ae.

(** ** Rolling statistics (main.go, lines 283-304) *)

(** [len(values)] as a Go [int]. *)
Definition len {A : Type} (values : list A) : Z := Z.of_nat (List.length values).

(** What the detector has in hand when it reports an anomaly: the arguments
    of its [log.Printf]. *)
Record Anomaly : Type := {
  a_currentValue : float;
  a_zScore : float;
  a_mean : float;
  a_stdDev : float
}.

(** [for _, v := range values { sum += v }] *)
Definition sumLoop (values : list float) : float :=
  fold_left (fun sum v => (sum + v)%float) values 0%float.

Definition calculateAverage (values : list float) : float :=
  if (len values =? 0)%Z then 0%float
  else
    let sum := sumLoop values in
    (sum / ofInt (len values))%float.

(** [for _, v := range values { sum += math.Pow(v-mean, 2) }] *)
Definition squaresLoop (values : list float) (mean : float) : float :=
  fold_left (fun sum v => (sum + Pow2 (v - mean))%float) values 0%float.

Definition calculateStandardDeviation (values : list float) (mean : float) : float :=
  if (len values <=? 1)%Z then 0%float
  else
    let sum := squaresLoop values mean in
    let variance := (sum / ofInt (len values - 1))%float in
    PrimFloat.sqrt variance.

(** The z-score test (main.go, lines 256-269): [Some] exactly when the
    innermost branch, the one that logs and counts the anomaly, is taken. *)
Definition evaluate (currentValue : float) (rpsValues : list float) : option Anomaly :=
  if (2 <=? len rpsValues)%Z then
    let mean := calculateAverage rpsValues in
    let stdDev := calculateStandardDeviation rpsValues mean in
    if negb (stdDev =? 0)%float then
      let zScore := ((currentValue - mean) / stdDev)%float in
      if (2.0 <? PrimFloat.abs zScore)%float then
        Some {| a_currentValue := currentValue; a_zScore := zScore;
                a_mean := mean; a_stdDev := stdDev |}
      else None
    else None
  else None.

Local Open Scope Z_scope.

(** ** Data model (main.go, lines 19-35) *)

(** [time.Time], as an instant: nanoseconds since the epoch. *)
Definition Time := Z.

Record Metric : Type := {
  Timestamp : Time;
  CPU : float;
  RPS : float
}.

(** The part of [AppState] that is plain data.  The Redis client and the
    Prometheus collectors it also holds are handles on shared state, which
    lives in [World] below. *)
Record AppState : Type := {
  windowSize : Z
}.

(** *** Redis

    The two keys the service uses: the string ["request_count"] (absent
    until first written) and the list ["metrics"].  An element of the list
    is the JSON text of a [Metric]; [json.Marshal] followed by
    [json.Unmarshal] gives the same [Metric] back, so the list is kept as a
    list of [Metric]. *)
Record Redis : Type := {
  request_count : option Z;
  metrics : list Metric
}.

Inductive RedisError : Type :=
| Unavailable        (* the command did not reach the server, or timed out *)
| Overflow.          (* INCR on the largest 64-bit integer *)

Inductive Result (A : Type) : Type :=
| Ok (a : A)
| Err (e : RedisError).
Arguments Ok {A} a.
Arguments Err {A} e.

Definition maxInt64 : Z := 9223372036854775807.

(** [int64(x)] of a mathematical integer: two's complement wrap-around. *)
Definition int64 (x : Z) : Z := (x + 2 ^ 63) mod 2 ^ 64 - 2 ^ 63.

(** Index normalisation shared by [LRANGE] and [LTRIM]: negative indices
    count from the end, the start is clamped to 0 and the stop to the last
    element, and an inverted or out-of-range interval is empty. *)
Definition redisRange {A : Type} (l : list A) (start stop : Z) : list A :=
  let llen := len l in
  let start := if start <? 0 then llen + start else start in
  let stop := if stop <? 0 then llen + stop else stop in
  let start := if start <? 0 then 0 else start in
  if (stop <? start) || (llen <=? start) then []
  else
    let stop := if llen <=? stop then llen - 1 else stop in
    firstn (Z.to_nat (stop - start + 1)) (skipn (Z.to_nat start) l).

(** [INCR request_count] *)
Definition redisIncr (s : Redis) : Result Z * Redis :=
  let v := match request_count s with Some v => v | None => 0 end in
  if v =? maxInt64 then (Err Overflow, s)
  else (Ok (v + 1), {| request_count := Some (v + 1); metrics := metrics s |}).

(** [RPUSH metrics item]: append at the tail; replies with the new length. *)
Definition redisRPush (item : Metric) (s : Redis) : Result Z * Redis :=
  let l := metrics s ++ [item] in
  (Ok (len l), {| request_count := request_count s; metrics := l |}).

(** [LTRIM metrics start stop]: keep only the elements in the interval. *)
Definition redisLTrim (start stop : Z) (s : Redis) : Result unit * Redis :=
  (Ok tt, {| request_count := request_count s;
             metrics := redisRange (metrics s) start stop |}).

(** [LRANGE metrics start stop] *)
Definition redisLRange (start stop : Z) (s : Redis) : Result (list Metric) * Redis :=
  (Ok (redisRange (metrics s) start stop), s).

(** *** Prometheus collectors and the log *)

Record Registry : Type := {
  requestCounter : N;
  anomalyCounter : N;
  cpuGauge : float;
  rpsGauge : float;
  rollingAvgGauge : float
}.

(** One constructor per [log.Printf] of [handleAnalyze], with its arguments. *)
Inductive LogLine : Type :=
| LogIncrError (e : RedisError)
| LogIncremented (newCount : Z)
| LogRPushError (e : RedisError)
| LogLTrimError (e : RedisError)
| LogLRangeError (e : RedisError)
| LogAnomaly (currentValue zScore mean stdDev : float)
| LogProcessed (timestamp : Time) (rps cpu rollingAvg : float).

(** *** The world a handler runs in

    [redisErrs] is the fate of the coming Redis commands, in the order they
    are issued: [true] means the command fails with [Unavailable] and leaves
    the store as it was; once the list is used up every command reaches the
    server. *)
Record World : Type := {
  redis : Redis;
  redisErrs : list bool;
  registry : Registry;
  logs : list LogLine
}.

(** ** State monad over the world *)

Definition M (A : Type) : Type := World -> A * World.

Definition ret {A : Type} (a : A) : M A := fun w => (a, w).

Definition bind {A B : Type} (c : M A) (k : A -> M B) : M B :=
  fun w => let (a, w') := c w in k a w'.

Declare Scope go_scope.
Delimit Scope go_scope with go.
Notation "x <- c ;; k" := (bind c (fun x => k))
  (at level 100, c at next level, right associativity) : go_scope.
Notation "c ;; k" := (bind c (fun _ => k))
  (at level 100, right associativity) : go_scope.

(** Issue one Redis command. *)
Definition redisDo {A : Type} (cmd : Redis -> Result A * Redis) : M (Result A) :=
  fun w =>
    let down := match redisErrs w with b :: _ => b | [] => false end in
    let w := {| redis := redis w; redisErrs := tl (redisErrs w);
                registry := registry w; logs := logs w |} in
    if down then (Err Unavailable, w)
    else
      let (r, s) := cmd (redis w) in
      (r, {| redis := s; redisErrs := redisErrs w;
             registry := registry w; logs := logs w |}).

Definition Incr : M (Result Z) := redisDo redisIncr.
Definition RPush (item : Metric) : M (Result Z) := redisDo (redisRPush item).
Definition LTrim (start stop : Z) : M (Result unit) := redisDo (redisLTrim start stop).
Definition LRange (start stop : Z) : M (Result (list Metric)) :=
  redisDo (redisLRange start stop).

Definition logPrintf (l : LogLine) : M unit :=
  fun w => (tt, {| redis := redis w; redisErrs := redisErrs w;
                   registry := registry w; logs := logs w ++ [l] |}).

Definition updRegistry (f : Registry -> Registry) : M unit :=
  fun w => (tt, {| redis := redis w; redisErrs := redisErrs w;
                   registry := f (registry w); logs := logs w |}).

Definition requestCounter_Inc : M unit :=
  updRegistry (fun r =>
    {| requestCounter := requestCounter r + 1; anomalyCounter := anomalyCounter r;
       cpuGauge := cpuGauge r; rpsGauge := rpsGauge r;
       rollingAvgGauge := rollingAvgGauge r |}).

Definition anomalyCounter_Inc : M unit :=
  updRegistry (fun r =>
    {| requestCounter := requestCounter r; anomalyCounter := anomalyCounter r + 1;
       cpuGauge := cpuGauge r; rpsGauge := rpsGauge r;
       rollingAvgGauge := rollingAvgGauge r |}).

Definition cpuGauge_Set (v : float) : M unit :=
  updRegistry (fun r =>
    {| requestCounter := requestCounter r; anomalyCounter := anomalyCounter r;
       cpuGauge := v; rpsGauge := rpsGauge r;
       rollingAvgGauge := rollingAvgGauge r |}).

Definition rpsGauge_Set (v : float) : M unit :=
  updRegistry (fun r =>
    {| requestCounter := requestCounter r; anomalyCounter := anomalyCounter r;
       cpuGauge := cpuGauge r; rpsGauge := v;
       rollingAvgGauge := rollingAvgGauge r |}).

Definition rollingAvgGauge_Set (v : float) : M unit :=
  updRegistry (fun r =>
    {| requestCounter := requestCounter r; anomalyCounter := anomalyCounter r;
       cpuGauge := cpuGauge r; rpsGauge := rpsGauge r;
       rollingAvgGauge := v |}).

(** ** Configuration (main.go, lines 39-113 and 182-188) *)

(** The process environment, as [os.Environ] lists it. *)
Definition Env := list (string * string).

(** [os.Getenv]: the value of the first binding of [key], [""] if unset. *)
Fixpoint os_Getenv (env : Env) (key : string) : string :=
  match env with
  | [] => EmptyString
  | (k, v) :: rest => if String.eqb k key then v else os_Getenv rest key
  end.

Definition getEnv (env : Env) (key defaultValue : string) : string :=
  let value := os_Getenv env key in
  if String.eqb value "" then defaultValue else value.

(** What [main] settles before it starts serving. *)
Record Startup : Type := {
  redisAddr : string;
  redisPassword : string;
  appState : AppState;
  port : string
}.

Definition main (env : Env) : Startup :=
  let redisAddr := getEnv env "REDIS_ADDR" "redis-master.default.svc.cluster.local:6379" in
  let redisPassword := getEnv env "REDIS_PASSWORD" "" in
  let appState := {| windowSize := 50 |} in
  let port := getEnv env "PORT" "8080" in
  {| redisAddr := redisAddr; redisPassword := redisPassword;
     appState := appState; port := port |}.

(** ** The handler (main.go, lines 194-281) *)

(** The request body is either a JSON document that decodes to a [Metric]
    or text on which [Decode] returns an error. *)
Inductive Body : Type :=
| Malformed (raw : string)
| Encoded (m : Metric).

Record Request : Type := {
  Method : string;
  body : Body
}.

(** [json.NewDecoder(r.Body).Decode(&metric)] *)
Definition Decode (b : Body) : option Metric :=
  match b with
  | Malformed _ => None
  | Encoded m => Some m
  end.

Record Response : Type := {
  status : Z;
  message : string
}.

Definition StatusAccepted : Z := 202.
Definition StatusBadRequest : Z := 400.
Definition StatusMethodNotAllowed : Z := 405.
Definition StatusInternalServerError : Z := 500.

Definition http_Error (error : string) (code : Z) : Response :=
  {| status := code; message := error |}.

(** The loop over the snapshot (lines 243-249). *)
Definition extractValues (window : list Metric) : list float * list float :=
  fold_left
    (fun acc met => (fst acc ++ [RPS met], snd acc ++ [CPU met]))
    window ([], []).

Local Open Scope go_scope.

(** Lines 243-272: statistics, export and anomaly test on a snapshot. *)
Definition analyzeWindow (m : Metric) (window : list Metric) : M unit :=
  let (rpsValues, cpuValues) := extractValues window in
  let rollingAvg := calculateAverage rpsValues in
  rollingAvgGauge_Set rollingAvg ;;
  match evaluate (RPS m) rpsValues with
  | Some a =>
      logPrintf (LogAnomaly (a_currentValue a) (a_zScore a) (a_mean a) (a_stdDev a)) ;;
      anomalyCounter_Inc
  | None => ret tt
  end ;;
  logPrintf (LogProcessed (Timestamp m) (RPS m) (CPU m) rollingAvg).

(** The goroutine started for an accepted metric (lines 221-273). *)
Definition goroutine (st : AppState) (m : Metric) : M unit :=
  res <- RPush m ;;
  match res with
  | Err e => logPrintf (LogRPushError e)
  | Ok _ =>
      res <- LTrim (int64 (- int64 (windowSize st))) (-1) ;;
      match res with
      | Err e => logPrintf (LogLTrimError e)
      | Ok _ => ret tt
      end ;;
      res <- LRange 0 (-1) ;;
      match res with
      | Err e => logPrintf (LogLRangeError e)
      | Ok window => analyzeWindow m window
      end
  end.

(** [handleAnalyze]: the response, and the metric handed to a new goroutine
    when one is started. *)
Definition handleAnalyze (st : AppState) (r : Request) : M (Response * option Metric) :=
  if negb (String.eqb (Method r) "POST") then
    ret (http_Error "Method not allowed" StatusMethodNotAllowed, None)
  else
    res <- Incr ;;
    match res with
    | Err e =>
        logPrintf (LogIncrError e) ;;
        ret (http_Error "Error incrementing counter" StatusInternalServerError, None)
    | Ok newCount =>
        logPrintf (LogIncremented newCount) ;;
        requestCounter_Inc ;;
        match Decode (body r) with
        | None => ret (http_Error "Invalid JSON" StatusBadRequest, None)
        | Some metric =>
            cpuGauge_Set (CPU metric) ;;
            rpsGauge_Set (RPS metric) ;;
            ret ({| status := StatusAccepted;
                    message := "Metric accepted for processing" |},
                 Some metric)
        end
    end.

(** One schedule of a request: the handler, then its goroutine run to
    completion before anything else touches the world. *)
Definition serve (st : AppState) (r : Request) : M Response :=
  out <- handleAnalyze st r ;;
  match snd out with
  | Some m => goroutine st m
  | None => ret tt
  end ;;
  ret (fst out).

(** ** The other endpoints and the start-up loop *)

(** [PING], [GET request_count] and [SET request_count v 0].  go-redis
    reports an absent key as the error [redis.Nil]; here [GET] replies
    [Ok None] for it, and [Err] is any other error. *)
Definition redisPing (s : Redis) : Result string * Redis := (Ok "PONG"%string, s).

Definition redisGet (s : Redis) : Result (option Z) * Redis := (Ok (request_count s), s).

Definition redisSet (v : Z) (s : Redis) : Result unit * Redis :=
  (Ok tt, {| request_count := Some v; metrics := metrics s |}).

Definition Ping : M (Result string) := redisDo redisPing.
Definition Get : M (Result (option Z)) := redisDo redisGet.
Definition SetKey (v : Z) : M (Result unit) := redisDo (redisSet v).

(** What [countHandler] and [healthHandler] write: an [http.Error], or a
    JSON object with status 200. *)
Inductive Reply : Type :=
| Plain (r : Response)
| CountJSON (count : Z)
| HealthJSON (status redisStatus : string) (timestamp : Time).

(** The [log.Printf] lines of [countHandler] and of [main]; a handler
    returns the lines it logs beside its reply. *)
Inductive AdminLog : Type :=
| LogSetError (e : RedisError)
| LogGetError (e : RedisError)
| LogConnected
| LogAttemptFailed (attempt : Z) (e : RedisError)
| LogNotConnected.

Definition StatusOK : Z := 200.

(** [countHandler] (main.go, lines 153-180). *)
Definition countHandler (r : Request) : M (Reply * list AdminLog) :=
  if negb (String.eqb (Method r) "GET") then
    ret (Plain (http_Error "Method not allowed" StatusMethodNotAllowed), [])
  else
    res <- Get ;;
    match res with
    | Err e =>
        ret (Plain (http_Error "Error retrieving count" StatusInternalServerError),
             [LogGetError e])
    | Ok None =>
        res <- SetKey 0 ;;
        match res with
        | Err e =>
            ret (Plain (http_Error "Error initializing count"
                          StatusInternalServerError),
                 [LogSetError e])
        | Ok _ => ret (CountJSON 0, [])
        end
    | Ok (Some count) => ret (CountJSON count, [])
    end.

(** [healthHandler] (main.go, lines 130-151); [now] is what [time.Now]
    returns. *)
Definition healthHandler (now : Time) (r : Request) : M Reply :=
  if negb (String.eqb (Method r) "GET") then
    ret (Plain (http_Error "Method not allowed" StatusMethodNotAllowed))
  else
    res <- Ping ;;
    let redisStatus :=
      match res with Ok _ => "healthy"%string | Err _ => "unhealthy"%string end in
    ret (HealthJSON "healthy" redisStatus now).

(** The connection loop of [main] (lines 52-66): up to [attempts] pings
    numbered from [i], stopping at the first that succeeds.  The result is
    [redisConnected], the lines logged and the seconds slept. *)
Fixpoint connectLoop (attempts : nat) (i : Z) : M (bool * list AdminLog * Z) :=
  match attempts with
  | O => ret (false, [], 0)
  | S attempts =>
      res <- Ping ;;
      match res with
      | Ok _ => ret (true, [LogConnected], 0)
      | Err e =>
          out <- connectLoop attempts (i + 1) ;;
          ret (fst (fst out), LogAttemptFailed (i + 1) e :: snd (fst out),
               2 + snd out)
      end
  end.

Definition connect : M (bool * list AdminLog * Z) :=
  out <- connectLoop 5 0 ;;
  if fst (fst out) then ret out
  else ret (false, snd (fst out) ++ [LogNotConnected], snd out).

(** ** Vocabulary of the properties, and sample data *)

(** The last [n] elements of a list: what remains when the oldest elements
    are dropped first. *)
Definition lastn {A : Type} (n : nat) (l : list A) : list A :=
  skipn (List.length l - n) l.

(** Whether the [i]-th Redis command from now on fails. *)
Definition fails (w : World) (i : nat) : bool := nth i (redisErrs w) false.

(** No scheduled failure: every coming command reaches the server. *)
Definition healthy (w : World) : Prop := Forall (fun b => b = false) (redisErrs w).

(** The content of the list ["metrics"]. *)
Definition window (w : World) : list Metric := metrics (redis w).

(** The worlds after a run of the goroutine for each metric of [ms] in turn. *)
Definition runAll (st : AppState) (ms : list Metric) (w : World) : World :=
  fold_left (fun w m => snd (goroutine st m w)) ms w.

(** What one evaluation of a snapshot leaves in the registry and in the
    log, in closed form. *)
Definition exported (m : Metric) (snapshot : list Metric) (rg : Registry) : Registry :=
  {| requestCounter := requestCounter rg;
     anomalyCounter :=
       (match evaluate (RPS m) (map RPS snapshot) with
        | Some _ => anomalyCounter rg + 1
        | None => anomalyCounter rg
        end)%N;
     cpuGauge := cpuGauge rg;
     rpsGauge := rpsGauge rg;
     rollingAvgGauge := calculateAverage (map RPS snapshot) |}.

(** The lines it adds to the log. *)
Definition reported (m : Metric) (snapshot : list Metric) : list LogLine :=
  match evaluate (RPS m) (map RPS snapshot) with
  | Some a => [LogAnomaly (a_currentValue a) (a_zScore a) (a_mean a) (a_stdDev a)]
  | None => []
  end
  ++ [LogProcessed (Timestamp m) (RPS m) (CPU m) (calculateAverage (map RPS snapshot))].

(** *** Sample data *)

Definition metricAt (t : Time) (cpu rps : float) : Metric :=
  {| Timestamp := t; CPU := cpu; RPS := rps |}.

Definition emptyWorld : World :=
  {| redis := {| request_count := None; metrics := [] |};
     redisErrs := [];
     registry := {| requestCounter := 0; anomalyCounter := 0; cpuGauge := 0;
                    rpsGauge := 0; rollingAvgGauge := 0 |};
     logs := [] |}.

(** A world whose window already holds [n] copies of [m], and in which the
    coming Redis commands meet the fates [errs]. *)
Definition worldWith (n : nat) (m : Metric) (errs : list bool) : World :=
  {| redis := {| request_count := Some (Z.of_nat n); metrics := repeat m n |};
     redisErrs := errs;
     registry := registry emptyWorld;
     logs := [] |}.

Definition post (b : Body) : Request := {| Method := "POST"; body := b |}.

(** The state [main] builds when the environment sets nothing. *)
Definition defaultState : AppState := appState (main []).

(** A binary64 value that is not zero and not NaN, of sign [sx]. *)
Definition nonzero_of_sign (sx : bool) (x : spec_float) : Prop :=
  (exists m e, x = S754_finite sx m e) \/ x = S754_infinity sx.

(** [lo < x < hi], as float64 comparisons. *)
Definition between (lo hi x : float) : bool := ((lo <? x) && (x <? hi))%float.

(** The durable request count, an absent key counting as 0 (as [INCR] and
    [countHandler] both take it). *)
Definition count (w : World) : Z :=
  match request_count (redis w) with Some v => v | None => 0 end.

(** The worlds after serving each request of [rs] in turn. *)
Definition serveAll (st : AppState) (rs : list Request) (w : World) : World :=
  fold_left (fun w r => snd (serve st r w)) rs w.

Definition isPost (r : Request) : bool := String.eqb (Method r) "POST".

Definition get : Request := {| Method := "GET"; body := Malformed "" |}.

(** The number of requests of [rs] that are POSTs. *)
Definition posts (rs : list Request) : Z := len (filter isPost rs).

(** The number of failed pings at the head of the coming fates, among at
    most [n] attempts. *)
Fixpoint leadingFailures (n : nat) (errs : list bool) : nat :=
  match n, errs with
  | S n', true :: rest => S (leadingFailures n' rest)
  | _, _ => O
  end.

(** The metric a request hands to a goroutine when it is accepted. *)
Definition acceptedMetric (r : Request) : option Metric :=
  if isPost r then Decode (body r) else None.

(** The metrics of the requests of [rs] that are POSTs with a body that
    decodes, in order of arrival. *)
Definition accepted (rs : list Request) : list Metric :=
  flat_map (fun r => match acceptedMetric r with Some m => [m] | None => [] end) rs.

(** * Properties *)

(** ** The store commands *)

Lemma length_lastn {A : Type} (n : nat) (l : list A) :
  List.length (lastn n l) = Nat.min n (List.length l).
Proof. unfold lastn. rewrite length_skipn. lia. Qed.

Lemma lastn_all {A : Type} (n : nat) (l : list A) :
  (List.length l <= n)%nat -> lastn n l = l.
Proof.
  intros Hle. unfold lastn.
  replace (List.length l - n)%nat with 0%nat by lia. reflexivity.
Qed.

(** Dropping from a longer history: only the tail matters. *)
Lemma lastn_app_lastn {A : Type} (n : nat) (l k : list A) :
  lastn n (lastn n l ++ k) = lastn n (l ++ k).
Proof.
  destruct (Nat.le_gt_cases (List.length l) n) as [Hle | Hgt].
  - now rewrite (lastn_all _ _ Hle).
  - unfold lastn at 2.
    assert (Hpre : skipn (List.length l - n) l ++ k
                   = skipn (List.length l - n) (l ++ k)).
    { rewrite skipn_app.
      replace (List.length l - n - List.length l)%nat with 0%nat by lia.
      reflexivity. }
    rewrite Hpre. unfold lastn. rewrite skipn_skipn. f_equal.
    rewrite length_skipn, length_app. lia.
Qed.

Lemma int64_small (x : Z) : - 2 ^ 63 <= x < 2 ^ 63 -> int64 x = x.
Proof.
  intros Hx. unfold int64.
  rewrite Z.mod_small by (change (2 ^ 64) with (2 * 2 ^ 63); lia). lia.
Qed.

Lemma trim_bounds (W : Z) :
  0 < W <= maxInt64 -> int64 (- int64 W) = - W.
Proof.
  unfold maxInt64. intros HW.
  assert (H63 : 2 ^ 63 = 9223372036854775808) by reflexivity.
  rewrite (int64_small W) by lia. apply int64_small. lia.
Qed.

(** [LRANGE key 0 -1] reads the whole list. *)
Lemma redisRange_all {A : Type} (l : list A) : redisRange l 0 (-1) = l.
Proof.
  unfold redisRange, len. cbn [Z.ltb Z.compare].
  destruct l as [| a l]; [reflexivity |].
  set (n := List.length (a :: l)).
  assert (Hn : (0 < n)%nat) by (unfold n; simpl; lia).
  replace (Z.of_nat n + -1 <? 0) with false by (symmetry; apply Z.ltb_ge; lia).
  replace (Z.of_nat n <=? 0) with false by (symmetry; apply Z.leb_gt; lia).
  replace (Z.of_nat n <=? Z.of_nat n + -1) with false
    by (symmetry; apply Z.leb_gt; lia).
  cbn [orb Z.to_nat skipn].
  replace (Z.to_nat (Z.of_nat n + -1 - 0 + 1)) with n by lia.
  apply firstn_all.
Qed.

(** [LTRIM key -W -1] keeps the last [W] elements. *)
Lemma redisRange_last {A : Type} (l : list A) (W : Z) :
  0 < W -> redisRange l (- W) (-1) = lastn (Z.to_nat W) l.
Proof.
  intros HW. unfold redisRange, lastn, len.
  set (n := List.length l).
  replace (- W <? 0) with true by (symmetry; apply Z.ltb_lt; lia).
  cbn [Z.ltb Z.compare].
  destruct (Z.ltb_spec (Z.of_nat n + - W) 0) as [Hshort | Hlong].
  - (* fewer than W elements: nothing to drop *)
    replace (n - Z.to_nat W)%nat with 0%nat by lia.
    destruct (Z.ltb_spec (Z.of_nat n + -1) 0) as [Hempty | Hsome].
    + cbn [orb]. destruct l; [reflexivity | simpl in n; lia].
    + replace (Z.of_nat n <=? 0) with false by (symmetry; apply Z.leb_gt; lia).
      replace (Z.of_nat n <=? Z.of_nat n + -1) with false
        by (symmetry; apply Z.leb_gt; lia).
      cbn [orb Z.to_nat skipn].
      replace (Z.to_nat (Z.of_nat n + -1 - 0 + 1)) with n by lia.
      apply firstn_all.
  - replace (Z.of_nat n + -1 <? Z.of_nat n + - W) with false
      by (symmetry; apply Z.ltb_ge; lia).
    replace (Z.of_nat n <=? Z.of_nat n + - W) with false
      by (symmetry; apply Z.leb_gt; lia).
    replace (Z.of_nat n <=? Z.of_nat n + -1) with false
      by (symmetry; apply Z.leb_gt; lia).
    cbn [orb].
    replace (Z.to_nat (Z.of_nat n + - W)) with (n - Z.to_nat W)%nat by lia.
    apply firstn_all2. rewrite length_skipn. fold n. lia.
Qed.

(** ** The snapshot loop *)

Lemma extractValues_acc (window : list Metric) (acc : list float * list float) :
  fold_left (fun acc met => (fst acc ++ [RPS met], snd acc ++ [CPU met])) window acc
  = (fst acc ++ map RPS window, snd acc ++ map CPU window).
Proof.
  revert acc. induction window as [| met window IH]; intros [rs cs]; simpl.
  - now rewrite !app_nil_r.
  - rewrite IH. simpl. now rewrite <- !app_assoc.
Qed.

Lemma extractValues_map (window : list Metric) :
  extractValues window = (map RPS window, map CPU window).
Proof. unfold extractValues. now rewrite extractValues_acc. Qed.

(** ** Running the handler and its goroutine *)

Ltac unfold_go :=
  unfold goroutine, handleAnalyze, analyzeWindow, bind, ret, Incr, RPush, LTrim,
    LRange, redisDo, logPrintf, anomalyCounter_Inc, requestCounter_Inc,
    cpuGauge_Set, rpsGauge_Set, rollingAvgGauge_Set, updRegistry, redisIncr,
    redisRPush, redisLTrim, redisLRange, fails, window in *.

Lemma analyzeWindow_eq (m : Metric) (snapshot : list Metric) (w : World) :
  analyzeWindow m snapshot w
  = (tt, {| redis := redis w; redisErrs := redisErrs w;
            registry := exported m snapshot (registry w);
            logs := logs w ++ reported m snapshot |}).
Proof.
  unfold analyzeWindow, exported, reported.
  rewrite extractValues_map. unfold_go. cbn.
  destruct (evaluate (RPS m) (map RPS snapshot)); cbn;
    now rewrite <- ?app_assoc.
Qed.

(** The append fails: nothing else happens. *)
Lemma goroutine_rpush_fails (st : AppState) (m : Metric) (w : World) :
  fails w 0 = true ->
  snd (goroutine st m w)
  = {| redis := redis w; redisErrs := tl (redisErrs w); registry := registry w;
       logs := logs w ++ [LogRPushError Unavailable] |}.
Proof.
  destruct w as [rd errs rg lg]. unfold_go. cbn.
  destruct errs as [| [|] errs]; cbn; intros Hf; try discriminate. reflexivity.
Qed.

(** The append succeeds: the window after the goroutine is the appended
    list, trimmed when the trim succeeds too. *)
Lemma goroutine_rpush_ok (st : AppState) (m : Metric) (w : World) :
  0 < windowSize st <= maxInt64 ->
  fails w 0 = false ->
  window (snd (goroutine st m w))
  = (if fails w 1 then window w ++ [m]
     else lastn (Z.to_nat (windowSize st)) (window w ++ [m]))
  /\ request_count (redis (snd (goroutine st m w))) = request_count (redis w)
  /\ redisErrs (snd (goroutine st m w)) = skipn 3 (redisErrs w)
  /\ registry (snd (goroutine st m w))
     = (if fails w 2 then registry w
        else exported m (window (snd (goroutine st m w))) (registry w))
  /\ (fails w 1 = true -> In (LogLTrimError Unavailable) (logs (snd (goroutine st m w)))).
Proof.
  intros HW. destruct w as [rd errs rg lg].
  unfold goroutine. rewrite (trim_bounds _ HW).
  unfold bind, RPush, LTrim, LRange, redisDo, redisRPush, redisLTrim,
    redisLRange, logPrintf, ret, fails, window. cbn.
  destruct errs as [| b0 [| b1 [| b2 errs]]]; cbn; intros Hf; subst;
    repeat match goal with b : bool |- _ => destruct b end; cbn;
    rewrite ?analyzeWindow_eq, ?(redisRange_last _ _ (proj1 HW)), ?redisRange_all;
    cbn; repeat split; try discriminate; try reflexivity;
    intros _; rewrite ?in_app_iff; cbn; tauto.
Qed.

Lemma healthy_fails (w : World) (i : nat) : healthy w -> fails w i = false.
Proof.
  unfold healthy, fails. intros Hh.
  destruct (nth_in_or_default i (redisErrs w) false) as [Hin | Hd]; [| exact Hd].
  rewrite Forall_forall in Hh. now apply Hh.
Qed.

Lemma healthy_goroutine (st : AppState) (m : Metric) (w : World) :
  0 < windowSize st <= maxInt64 ->
  healthy w -> healthy (snd (goroutine st m w)).
Proof.
  intros HW Hh. unfold healthy.
  destruct (goroutine_rpush_ok st m w HW (healthy_fails w 0 Hh)) as (_ & _ & -> & _).
  unfold healthy in Hh. rewrite Forall_forall in *. intros b Hb. apply Hh.
  rewrite <- (firstn_skipn 3 (redisErrs w)). apply in_or_app. now right.
Qed.

(** C3. After any sequence of append-and-trim operations that complete, the
    window never holds more than [windowSize] elements, and it holds
    exactly the last [windowSize] elements of the history (the old window
    followed by the appended metrics, in order), the oldest dropped
    first. *)
Theorem window_keeps_most_recent (st : AppState) (ms : list Metric) (w : World) :
  0 < windowSize st <= maxInt64 ->
  healthy w ->
  ms <> [] \/ len (window w) <= windowSize st ->
  window (runAll st ms w) = lastn (Z.to_nat (windowSize st)) (window w ++ ms)
  /\ len (window (runAll st ms w)) <= windowSize st.
Proof.
  intros HW Hh Hstart.
  assert (Heq : window (runAll st ms w)
                = lastn (Z.to_nat (windowSize st)) (window w ++ ms)).
  { revert w Hh Hstart.
    induction ms as [| m ms IH]; intros w Hh Hstart.
    - destruct Hstart as [Hne | Hlen]; [congruence |].
      cbn. rewrite app_nil_r. symmetry. apply lastn_all. unfold len in Hlen. lia.
    - cbn [runAll fold_left]. fold (runAll st ms (snd (goroutine st m w))).
      destruct (goroutine_rpush_ok st m w HW (healthy_fails w 0 Hh)) as (Hwin & _).
      rewrite (healthy_fails w 1 Hh) in Hwin.
      rewrite IH.
      + rewrite Hwin, lastn_app_lastn, <- app_assoc. reflexivity.
      + now apply healthy_goroutine.
      + right. rewrite Hwin. unfold len. rewrite length_lastn. lia. }
  split; [exact Heq |].
  rewrite Heq. unfold len. rewrite length_lastn. lia.
Qed.

Lemma window_keeps_most_recent_witness :
  let ms := map (fun t => metricAt (Z.of_nat t) 35 10) (seq 0 60) in
  window (runAll defaultState ms emptyWorld)
  = lastn 50 (window emptyWorld ++ ms)
  /\ len (window (runAll defaultState ms emptyWorld)) <= 50.
Proof.
  apply (window_keeps_most_recent defaultState _ emptyWorld).
  - unfold maxInt64. cbn. lia.
  - apply Forall_nil.
  - left. discriminate.
Defined.

(** ** Failures of the background update *)

(** C7, as the code has it.  The append and the trim are two commands.  When
    the append fails, the window and the registry are untouched, the failure
    is logged and the goroutine ends.  When the append succeeds and the trim
    fails, the failure is logged and the window keeps the appended metric
    untrimmed.  When both succeed, the window is the last [windowSize]
    elements of the old window followed by the metric. *)
Theorem append_then_trim_outcomes (st : AppState) (m : Metric) (w : World) :
  0 < windowSize st <= maxInt64 ->
  let w' := snd (goroutine st m w) in
  (fails w 0 = true ->
     window w' = window w /\ registry w' = registry w
     /\ logs w' = logs w ++ [LogRPushError Unavailable])
  /\ (fails w 0 = false -> fails w 1 = true ->
        window w' = window w ++ [m]
        /\ In (LogLTrimError Unavailable) (logs w')
        /\ (fails w 2 = false ->
            registry w' = exported m (window w ++ [m]) (registry w)))
  /\ (fails w 0 = false -> fails w 1 = false ->
        window w' = lastn (Z.to_nat (windowSize st)) (window w ++ [m])).
Proof.
  intros HW w'. subst w'. split; [| split].
  - intros Hpush. rewrite (goroutine_rpush_fails st m w Hpush). auto.
  - intros Hpush Htrim.
    destruct (goroutine_rpush_ok st m w HW Hpush) as (Hwin & _ & _ & Hreg & Hlog).
    rewrite Htrim in Hwin. repeat split; auto.
    intros Hrange. now rewrite Hreg, Hrange, Hwin.
  - intros Hpush Htrim.
    destruct (goroutine_rpush_ok st m w HW Hpush) as (Hwin & _).
    now rewrite Htrim in Hwin.
Qed.

Lemma append_then_trim_outcomes_witness :
  let m := metricAt 7 35 10 in
  let w := worldWith 50 m [false; true] in
  let w' := snd (goroutine defaultState m w) in
  0 < windowSize defaultState <= maxInt64
  /\ window w' = window w ++ [m]
  /\ In (LogLTrimError Unavailable) (logs w')
  /\ (fails w 2 = false -> registry w' = exported m (window w ++ [m]) (registry w)).
Proof.
  assert (HW : 0 < windowSize defaultState <= maxInt64)
    by (unfold maxInt64; cbn; lia).
  split; [exact HW |].
  exact (proj1 (proj2 (append_then_trim_outcomes defaultState (metricAt 7 35 10)
                         (worldWith 50 (metricAt 7 35 10) [false; true]) HW))
           eq_refl eq_refl).
Defined.

(** C7, as stated, fails: with a full window, an append that succeeds and a
    trim that fails, the window afterwards is neither the old window nor the
    appended-and-trimmed one; it holds 51 elements. *)
Lemma append_without_trim_is_visible :
  let m := metricAt 7 35 10 in
  let w := worldWith 50 m [false; true] in
  let w' := snd (goroutine defaultState m w) in
  ~ (window w' = window w \/ window w' = lastn 50 (window w ++ [m]))
  /\ len (window w') = 51.
Proof.
  cbv zeta. split; [| reflexivity].
  intros [H | H]; apply (f_equal (@List.length Metric)) in H;
    vm_compute in H; discriminate.
Qed.

(** ** The synchronous half of a request *)

(** A failed [INCR] changes nothing but the list of coming fates. *)
Lemma Incr_Err (w : World) (e : RedisError) :
  fst (Incr w) = Err e ->
  redis (snd (Incr w)) = redis w /\ registry (snd (Incr w)) = registry w
  /\ logs (snd (Incr w)) = logs w.
Proof.
  destruct w as [rd errs rg lg]. unfold Incr, redisDo, redisIncr. cbn.
  destruct (match errs with [] => false | b :: _ => b end); cbn; [auto |].
  destruct (_ =? maxInt64); cbn; [auto | discriminate].
Qed.

(** A successful [INCR] stores the new count and leaves the rest alone. *)
Lemma Incr_Ok (w : World) (n : Z) :
  fst (Incr w) = Ok n ->
  request_count (redis (snd (Incr w))) = Some n
  /\ metrics (redis (snd (Incr w))) = metrics (redis w)
  /\ registry (snd (Incr w)) = registry w.
Proof.
  destruct w as [rd errs rg lg]. unfold Incr, redisDo, redisIncr. cbn.
  destruct (match errs with [] => false | b :: _ => b end); cbn; [discriminate |].
  destruct (_ =? maxInt64); cbn; [discriminate |].
  intros [= <-]. auto.
Qed.

(** C8. When the increment of the durable request counter fails, the
    caller gets the server error 500, no goroutine is started, and the
    store and the registry (request counter and gauges included) are as
    they were. *)
Theorem incr_failure_rejects (st : AppState) (r : Request) (w : World) (e : RedisError) :
  Method r = "POST"%string ->
  fst (Incr w) = Err e ->
  let out := handleAnalyze st r w in
  status (fst (fst out)) = StatusInternalServerError
  /\ snd (fst out) = None
  /\ redis (snd out) = redis w
  /\ registry (snd out) = registry w
  /\ logs (snd out) = logs w ++ [LogIncrError e]
  /\ serve st r w = (fst (fst out), snd out).
Proof.
  intros Hm He out. subst out.
  destruct (Incr_Err w e He) as (Hrd & Hrg & Hlg).
  unfold serve, handleAnalyze, bind. rewrite Hm.
  change (String.eqb "POST" "POST") with true. cbv beta iota delta [negb].
  destruct (Incr w) as [res w1]. cbn in He, Hrd, Hrg, Hlg. subst res.
  unfold logPrintf, ret. cbn. rewrite Hrd, Hrg, Hlg. auto 10.
Qed.

Lemma incr_failure_rejects_witness :
  let r := post (Encoded (metricAt 7 35 10)) in
  let w := worldWith 3 (metricAt 1 30 10) [true] in
  let out := handleAnalyze defaultState r w in
  status (fst (fst out)) = 500
  /\ snd (fst out) = None
  /\ redis (snd out) = redis w
  /\ registry (snd out) = registry w
  /\ logs (snd out) = logs w ++ [LogIncrError Unavailable]
  /\ serve defaultState r w = (fst (fst out), snd out).
Proof.
  exact (incr_failure_rejects defaultState (post (Encoded (metricAt 7 35 10)))
           (worldWith 3 (metricAt 1 30 10) [true]) Unavailable eq_refl eq_refl).
Defined.

(** C5, as the code has it.  For a request whose body does not decode,
    nothing is accepted: no goroutine is started, and the window, the gauges
    and the anomaly counter are as they were.  For a POST the increment comes
    before the decoding, though: when it succeeds the answer is 400 and both
    the durable counter and the exported request counter have moved by one;
    when it fails the answer is 500 and they have not.  Any other method is
    answered 405 with the world untouched. *)
Theorem malformed_payload_rejected (st : AppState) (r : Request) (w : World) :
  Decode (body r) = None ->
  let out := handleAnalyze st r w in
  let rg := registry w in
  let rg' := registry (snd out) in
  snd (fst out) = None
  /\ window (snd out) = window w
  /\ cpuGauge rg' = cpuGauge rg /\ rpsGauge rg' = rpsGauge rg
  /\ rollingAvgGauge rg' = rollingAvgGauge rg
  /\ anomalyCounter rg' = anomalyCounter rg
  /\ if String.eqb (Method r) "POST" then
       match fst (Incr w) with
       | Ok n =>
           status (fst (fst out)) = StatusBadRequest
           /\ request_count (redis (snd out)) = Some n
           /\ requestCounter rg' = (requestCounter rg + 1)%N
       | Err _ =>
           status (fst (fst out)) = StatusInternalServerError
           /\ request_count (redis (snd out)) = request_count (redis w)
           /\ requestCounter rg' = requestCounter rg
       end
     else status (fst (fst out)) = StatusMethodNotAllowed /\ snd out = w.
Proof.
  intros Hd out rg rg'. subst out rg rg'.
  unfold handleAnalyze, bind, window. rewrite Hd.
  destruct (String.eqb (Method r) "POST"); cbv beta iota delta [negb].
  - destruct (Incr w) as [[n | e] w1] eqn:Hincr; cbn [fst].
    + destruct (Incr_Ok w n) as (Hc & Hms & Hrg); [now rewrite Hincr |].
      rewrite Hincr in Hc, Hms, Hrg. cbn in Hc, Hms, Hrg.
      unfold logPrintf, requestCounter_Inc, updRegistry, ret. cbn.
      rewrite Hrg, Hms, Hc. repeat split; reflexivity.
    + destruct (Incr_Err w e) as (Hrd & Hrg & _); [now rewrite Hincr |].
      rewrite Hincr in Hrd, Hrg. cbn in Hrd, Hrg.
      unfold logPrintf, ret. cbn. rewrite Hrd, Hrg. repeat split; reflexivity.
  - unfold ret. cbn. repeat split; reflexivity.
Qed.

Lemma malformed_payload_rejected_witness :
  let w := worldWith 3 (metricAt 1 30 10) [] in
  let out := handleAnalyze defaultState (post (Malformed "{")) w in
  Decode (Malformed "{") = None
  /\ status (fst (fst out)) = 400
  /\ snd (fst out) = None
  /\ window (snd out) = window w
  /\ request_count (redis (snd out)) = Some 4
  /\ requestCounter (registry (snd out)) = 1%N.
Proof.
  pose proof (malformed_payload_rejected defaultState (post (Malformed "{"))
                (worldWith 3 (metricAt 1 30 10) []) eq_refl) as H.
  cbv zeta in H. destruct H as (Hgo & Hwin & _ & _ & _ & _ & Hst & Hc & Hrc).
  cbv zeta. repeat split; assumption.
Defined.

(** C5, as stated, fails: a malformed POST on a fresh store is answered 400,
    yet the durable request counter and the exported request counter have
    both been incremented. *)
Lemma malformed_payload_is_counted :
  let out := handleAnalyze defaultState (post (Malformed "{")) emptyWorld in
  status (fst (fst out)) = 400
  /\ ~ (request_count (redis (snd out)) = request_count (redis emptyWorld)
        /\ requestCounter (registry (snd out)) = requestCounter (registry emptyWorld))
  /\ request_count (redis (snd out)) = Some 1
  /\ requestCounter (registry (snd out)) = 1%N.
Proof.
  cbv zeta. split; [reflexivity |]. split; [| split; reflexivity].
  intros [H _]. vm_compute in H. discriminate.
Qed.

(** ** Configuration *)

Lemma getEnv_set (env : Env) (key defaultValue : string) :
  os_Getenv env key <> EmptyString -> getEnv env key defaultValue = os_Getenv env key.
Proof.
  unfold getEnv. intros Hset.
  destruct (String.eqb_spec (os_Getenv env key) ""); [contradiction | reflexivity].
Qed.

Lemma getEnv_unset (env : Env) (key defaultValue : string) :
  os_Getenv env key = EmptyString -> getEnv env key defaultValue = defaultValue.
Proof. unfold getEnv. now intros ->. Qed.

(** C9, as the code has it.  The listening port, the store address and the
    store password come from the environment ([PORT], [REDIS_ADDR],
    [REDIS_PASSWORD]) and fall back to a default when unset or empty.  The
    window capacity does not: it is 50 in every environment, and 50 is what
    the trim uses. *)
Theorem capacity_is_fixed_port_and_address_configured (env : Env) :
  windowSize (appState (main env)) = 50
  /\ (forall (m : Metric) (w : World),
        fails w 0 = false -> fails w 1 = false ->
        window (snd (goroutine (appState (main env)) m w))
        = lastn 50 (window w ++ [m]))
  /\ port (main env) = getEnv env "PORT" "8080"
  /\ redisAddr (main env)
     = getEnv env "REDIS_ADDR" "redis-master.default.svc.cluster.local:6379"
  /\ redisPassword (main env) = getEnv env "REDIS_PASSWORD" ""
  /\ (forall key d, os_Getenv env key <> EmptyString ->
                    getEnv env key d = os_Getenv env key)
  /\ (forall key d, os_Getenv env key = EmptyString -> getEnv env key d = d).
Proof.
  split; [reflexivity |]. split.
  - intros m w Hpush Htrim.
    assert (HW : 0 < windowSize (appState (main env)) <= maxInt64)
      by (unfold maxInt64; cbn; lia).
    destruct (goroutine_rpush_ok _ m w HW Hpush) as (Hwin & _).
    now rewrite Htrim in Hwin.
  - repeat split; auto using getEnv_set, getEnv_unset.
Qed.

(** C9, as stated, fails: whatever the name under which an environment
    supplies the capacity 10, the capacity is not 10, while the port and the
    address supplied alongside are taken. *)
Lemma window_capacity_not_from_environment :
  let env (key : string) : Env :=
    [(key, "10"%string); ("PORT"%string, "9090"%string);
     ("REDIS_ADDR"%string, "localhost:6379"%string)] in
  ~ (exists key : string, windowSize (appState (main (env key))) = 10)
  /\ port (main (env "WINDOW_SIZE"%string)) = "9090"%string
  /\ redisAddr (main (env "WINDOW_SIZE"%string)) = "localhost:6379"%string.
Proof.
  cbv zeta. split; [| split; reflexivity].
  intros [key H]. cbn in H. discriminate.
Qed.

(** ** The anomaly test *)

(** The two statistics written out, for windows long enough that the
    length guards do not apply. *)
Lemma calculateAverage_formula (values : list float) :
  1 <= len values ->
  calculateAverage values
  = (fold_left PrimFloat.add values 0 / ofInt (len values))%float.
Proof.
  intros Hlen. unfold calculateAverage, sumLoop.
  destruct (Z.eqb_spec (len values) 0) as [Hz | _]; [lia | reflexivity].
Qed.

Lemma calculateStandardDeviation_formula (values : list float) (mean : float) :
  2 <= len values ->
  calculateStandardDeviation values mean
  = PrimFloat.sqrt
      (fold_left (fun sum v => sum + Pow2 (v - mean)) values 0
       / ofInt (len values - 1))%float.
Proof.
  intros Hlen. unfold calculateStandardDeviation, squaresLoop.
  destruct (Z.leb_spec (len values) 1) as [Hle | _]; [lia | reflexivity].
Qed.

(** C1. With the mean as the running sum of the values over their number,
    and the standard deviation as the square root of the running sum of the
    squared deviations over [n - 1], the test reports an anomaly exactly when
    the snapshot has at least two values, the standard deviation is not zero
    and the absolute z-score is above 2.0, and what it reports are these
    figures.  With fewer than two values, or a zero standard deviation, there
    is no anomaly.  The anomaly counter moves by one in the first case and
    not at all otherwise; the evaluation itself always returns. *)
Theorem evaluate_anomalous_iff (m : Metric) (snapshot : list Metric) (w : World) :
  let currentValue := RPS m in
  let rpsValues := map RPS snapshot in
  let n := len rpsValues in
  let mean := (fold_left PrimFloat.add rpsValues 0 / ofInt n)%float in
  let stdDev :=
    PrimFloat.sqrt
      (fold_left (fun sum v => sum + Pow2 (v - mean)) rpsValues 0
       / ofInt (n - 1))%float in
  let zScore := ((currentValue - mean) / stdDev)%float in
  let anomalous :=
    2 <= n /\ (stdDev =? 0)%float = false
    /\ (2.0 <? PrimFloat.abs zScore)%float = true in
  let w' := snd (analyzeWindow m snapshot w) in
  (evaluate currentValue rpsValues <> None <-> anomalous)
  /\ (n < 2 \/ (stdDev =? 0)%float = true ->
      evaluate currentValue rpsValues = None)
  /\ (forall a : Anomaly,
        evaluate currentValue rpsValues = Some a ->
        a_currentValue a = currentValue /\ a_zScore a = zScore
        /\ a_mean a = mean /\ a_stdDev a = stdDev)
  /\ (anomalous -> anomalyCounter (registry w') = (anomalyCounter (registry w) + 1)%N)
  /\ (~ anomalous -> anomalyCounter (registry w') = anomalyCounter (registry w)).
Proof.
  intros currentValue rpsValues n mean stdDev zScore anomalous w'.
  assert (Hcases :
            (n < 2 /\ evaluate currentValue rpsValues = None)
            \/ (2 <= n
                /\ evaluate currentValue rpsValues
                   = if negb (stdDev =? 0)%float then
                       if (2.0 <? PrimFloat.abs zScore)%float then
                         Some {| a_currentValue := currentValue; a_zScore := zScore;
                                 a_mean := mean; a_stdDev := stdDev |}
                       else None
                     else None)).
  { unfold evaluate. fold n.
    destruct (Z.leb_spec 2 n) as [Hge | Hlt]; [right | left; split; [lia | reflexivity]].
    split; [exact Hge |].
    rewrite (calculateAverage_formula rpsValues) by (fold n; lia).
    rewrite (calculateStandardDeviation_formula rpsValues) by exact Hge.
    reflexivity. }
  assert (Hiff : evaluate currentValue rpsValues <> None <-> anomalous).
  { unfold anomalous. destruct Hcases as [(Hlt & ->) | (Hge & ->)].
    - split; [congruence | intros (Hge & _); lia].
    - destruct (stdDev =? 0)%float; cbn [negb].
      + split; [congruence | intros (_ & Hsd & _); discriminate].
      + destruct (2.0 <? PrimFloat.abs zScore)%float.
        * split; [auto | discriminate].
        * split; [congruence | intros (_ & _ & Hz); discriminate]. }
  split; [exact Hiff |]. split; [| split].
  - intros Hno. destruct (evaluate currentValue rpsValues) eqn:He; [| reflexivity].
    assert (Han : anomalous) by (apply Hiff; discriminate).
    destruct Han as (Hge & Hsd & _). destruct Hno as [Hlt | Hz]; [lia | congruence].
  - intros a Ha. destruct Hcases as [(_ & Hnone) | (_ & Hsome)]; [congruence |].
    rewrite Hsome in Ha.
    destruct (negb (stdDev =? 0)%float); [| discriminate].
    destruct (2.0 <? PrimFloat.abs zScore)%float; [| discriminate].
    injection Ha as <-. auto.
  - subst w'. rewrite analyzeWindow_eq. unfold exported. cbn [snd registry anomalyCounter].
    fold rpsValues. fold currentValue.
    split.
    + intros Han. apply Hiff in Han.
      destruct (evaluate currentValue rpsValues); [reflexivity | congruence].
    + intros Hnot. destruct (evaluate currentValue rpsValues) eqn:He; [| reflexivity].
      exfalso. apply Hnot, Hiff. discriminate.
Qed.

(** C10. The rolling average, the z-score and the verdict are functions of
    the RPS values alone: two evaluations that agree on the RPS of the
    submitted metric and on the RPS values of the snapshot leave the same
    registry and reach the same verdict with the same z-score, whatever
    their CPU values and timestamps. *)
Theorem statistics_depend_on_rps_only
    (m1 m2 : Metric) (snapshot1 snapshot2 : list Metric) (w : World) :
  RPS m1 = RPS m2 ->
  map RPS snapshot1 = map RPS snapshot2 ->
  calculateAverage (fst (extractValues snapshot1))
  = calculateAverage (fst (extractValues snapshot2))
  /\ evaluate (RPS m1) (fst (extractValues snapshot1))
     = evaluate (RPS m2) (fst (extractValues snapshot2))
  /\ registry (snd (analyzeWindow m1 snapshot1 w))
     = registry (snd (analyzeWindow m2 snapshot2 w)).
Proof.
  intros Hm Hs. rewrite !analyzeWindow_eq, !extractValues_map. cbn.
  unfold exported. now rewrite Hm, Hs.
Qed.

Lemma statistics_depend_on_rps_only_witness :
  let history := [10; 12; 9; 11; 10]%float in
  let snapshot1 := map (metricAt 1 20) history ++ [metricAt 2 20 60] in
  let snapshot2 := map (metricAt 5 90) history ++ [metricAt 9 95 60] in
  calculateAverage (fst (extractValues snapshot1))
  = calculateAverage (fst (extractValues snapshot2))
  /\ evaluate 60%float (fst (extractValues snapshot1))
     = evaluate 60%float (fst (extractValues snapshot2))
  /\ registry (snd (analyzeWindow (metricAt 2 20 60) snapshot1 emptyWorld))
     = registry (snd (analyzeWindow (metricAt 9 95 60) snapshot2 emptyWorld)).
Proof.
  exact (statistics_depend_on_rps_only
           (metricAt 2 20 60) (metricAt 9 95 60)
           (map (metricAt 1 20) [10; 12; 9; 11; 10]%float ++ [metricAt 2 20 60])
           (map (metricAt 5 90) [10; 12; 9; 11; 10]%float ++ [metricAt 9 95 60])
           emptyWorld eq_refl eq_refl).
Defined.

(** ** Facts about binary64 that the constant-window case rests on *)

(** The primitive operations are specified through [Prim2SF], the view of a
    [float] as sign, mantissa and exponent.  Three facts are needed: a
    finite number minus itself is [+0]; [float64(k)] of a positive [int] is
    a positive number (so it is neither zero nor NaN); and then [0 / float64(k)]
    is [+0]. *)
Module B64.

(** A finite float is a zero or a signed mantissa with an exponent. *)
Lemma finite_class (v : float) :
  is_finite v = true ->
  (exists s, Prim2SF v = S754_zero s) \/ (exists s m e, Prim2SF v = S754_finite s m e).
Proof.
  unfold is_finite, is_nan, is_infinity.
  rewrite !eqb_spec, abs_spec.
  destruct (Prim2SF v) as [s | s | | s m e]; intros H.
  - eauto.
  - destruct s; vm_compute in H; discriminate.
  - vm_compute in H; discriminate.
  - eauto 6.
Qed.

Lemma sub_diag (v : float) : is_finite v = true -> (v - v)%float = 0%float.
Proof.
  intros Hf. apply Prim2SF_inj. rewrite sub_spec.
  destruct (finite_class v Hf) as [[s ->] | (s & m & e & ->)].
  - destruct s; reflexivity.
  - unfold SF64sub, SFsub. rewrite Z.min_id. unfold shl_align.
    rewrite Z.sub_diag. reflexivity.
Qed.

(** How the number of binary digits moves under the steps of rounding:
    shifting left, adding one, shifting right. *)
Lemma digits2_iter_xO (p k : positive) :
  digits2_pos (Pos.iter xO p k) = (digits2_pos p + k)%positive.
Proof.
  induction k as [| k IH] using Pos.peano_ind.
  - cbn. lia.
  - rewrite Pos.iter_succ. cbn. rewrite IH. lia.
Qed.

Lemma digits2_succ (p : positive) :
  digits2_pos (Pos.succ p) = digits2_pos p
  \/ digits2_pos (Pos.succ p) = Pos.succ (digits2_pos p).
Proof.
  induction p as [p IH | p IH |]; cbn; auto.
  destruct IH as [-> | ->]; auto.
Qed.

Lemma shr_1_digits (mrs : shr_record) (p : positive) :
  shr_m mrs = Zpos p -> (1 < digits2_pos p)%positive ->
  exists p', shr_m (shr_1 mrs) = Zpos p' /\ Pos.succ (digits2_pos p') = digits2_pos p.
Proof.
  destruct mrs as [m r s]. cbn. intros -> Hd.
  destruct p as [p | p |]; cbn in *; [eauto | eauto | lia].
Qed.

Lemma iter_shr_1_digits (n : positive) :
  forall (mrs : shr_record) (p : positive),
    shr_m mrs = Zpos p -> (n < digits2_pos p)%positive ->
    exists p', shr_m (SpecFloat.iter_pos shr_1 n mrs) = Zpos p'
               /\ (digits2_pos p' + n)%positive = digits2_pos p.
Proof.
  induction n as [n IH | n IH |]; intros mrs p Hm Hd; cbn [SpecFloat.iter_pos].
  - destruct (shr_1_digits mrs p Hm) as (p0 & Hm0 & Hd0); [lia |].
    destruct (IH _ p0 Hm0) as (p1 & Hm1 & Hd1); [lia |].
    destruct (IH _ p1 Hm1) as (p2 & Hm2 & Hd2); [lia |].
    exists p2. split; [exact Hm2 | lia].
  - destruct (IH _ p Hm) as (p1 & Hm1 & Hd1); [lia |].
    destruct (IH _ p1 Hm1) as (p2 & Hm2 & Hd2); [lia |].
    exists p2. split; [exact Hm2 | lia].
  - destruct (shr_1_digits mrs p Hm) as (p0 & Hm0 & Hd0); [lia |].
    exists p0. split; [exact Hm0 | lia].
Qed.

Lemma shr_record_of_loc_m (m : Z) (l : location) : shr_m (shr_record_of_loc m l) = m.
Proof. destruct l as [| []]; reflexivity. Qed.

(** A right shift by fewer places than the mantissa has digits leaves a
    positive mantissa, shorter by that many digits. *)
Lemma shr_keeps_positive (mrs : shr_record) (p : positive) (e n : Z) :
  shr_m mrs = Zpos p -> 0 <= n < Zpos (digits2_pos p) ->
  exists p', shr_m (fst (shr mrs e n)) = Zpos p'
             /\ Zpos (digits2_pos p') = Zpos (digits2_pos p) - n
             /\ snd (shr mrs e n) = e + n.
Proof.
  intros Hm Hn. unfold shr. destruct n as [| k | k]; cbn [fst snd].
  - exists p. split; [exact Hm | split; lia].
  - destruct (iter_shr_1_digits k mrs p Hm) as (p' & Hm' & Hd'); [lia |].
    exists p'. split; [exact Hm' | split; [lia | reflexivity]].
  - lia.
Qed.

Lemma round_nearest_even_digits (p : positive) (l : location) :
  exists p', round_nearest_even (Zpos p) l = Zpos p'
             /\ (digits2_pos p' = digits2_pos p
                 \/ digits2_pos p' = Pos.succ (digits2_pos p)).
Proof.
  assert (Hs : exists p', Zpos p + 1 = Zpos p'
                          /\ (digits2_pos p' = digits2_pos p
                              \/ digits2_pos p' = Pos.succ (digits2_pos p))).
  { exists (Pos.succ p). split; [lia | apply digits2_succ]. }
  unfold round_nearest_even. destruct l as [| []]; eauto.
  destruct (Z.even (Zpos p)); eauto.
Qed.

(** Rounding a mantissa of at least [prec] digits, away from the subnormal
    range, gives a non-zero number of the same sign (or overflows to the
    infinity of that sign). *)
Lemma binary_round_aux_normal (sx : bool) (p : positive) (e : Z) (lx : location) :
  prec <= Zpos (digits2_pos p) ->
  emin + prec <= Zpos (digits2_pos p) + e ->
  nonzero_of_sign sx (binary_round_aux prec emax sx (Zpos p) e lx).
Proof.
  intros Hprec Hemin. unfold binary_round_aux, shr_fexp, fexp.
  cbn [Zdigits2].
  rewrite Z.max_l by lia.
  destruct (shr_keeps_positive (shr_record_of_loc (Zpos p) lx) p e
              (Zpos (digits2_pos p) + e - prec - e)) as (p1 & Hm1 & Hd1 & He1).
  { apply shr_record_of_loc_m. }
  { unfold prec in *. lia. }
  destruct (shr _ e _) as [mrs1 e1]. cbn [fst snd] in Hm1, He1.
  rewrite Hm1.
  destruct (round_nearest_even_digits p1 (loc_of_shr_record mrs1)) as (p2 & -> & Hd2).
  cbn [Zdigits2].
  assert (Hd2' : Zpos (digits2_pos p2) = prec \/ Zpos (digits2_pos p2) = prec + 1)
    by (destruct Hd2 as [-> | ->]; lia).
  rewrite Z.max_l by (unfold emin, prec, emax in *; lia).
  destruct (shr_keeps_positive (shr_record_of_loc (Zpos p2) loc_Exact) p2 e1
              (Zpos (digits2_pos p2) + e1 - prec - e1)) as (p3 & Hm3 & _ & _).
  { reflexivity. }
  { unfold prec in *. lia. }
  destruct (shr _ e1 _) as [mrs3 e3]. cbn [fst] in Hm3. rewrite Hm3.
  unfold nonzero_of_sign. destruct (e3 <=? emax - prec); eauto.
Qed.

(** The conversion of a positive integer. *)
Lemma binary_round_integer (p : positive) :
  nonzero_of_sign false (binary_round prec emax false p 0).
Proof.
  unfold binary_round, shl_align, fexp.
  assert (Hd : 0 < Zpos (digits2_pos p)) by lia.
  rewrite Z.max_l by (unfold emin, prec, emax; lia).
  destruct (Zpos (digits2_pos p) + 0 - prec - 0) as [| k | k] eqn:Hk.
  - apply binary_round_aux_normal; unfold emin, prec, emax in *; lia.
  - apply binary_round_aux_normal; unfold emin, prec, emax in *; lia.
  - apply binary_round_aux_normal; rewrite digits2_iter_xO;
      unfold emin, prec, emax in *; lia.
Qed.

Lemma of_uint63_positive (k : Z) :
  0 < k < 2 ^ 63 ->
  nonzero_of_sign false (Prim2SF (of_uint63 (Uint63.of_Z k))).
Proof.
  intros Hk. rewrite of_uint63_spec, Uint63.of_Z_spec.
  rewrite Z.mod_small by (change Uint63.wB with (2 ^ 63); lia).
  destruct k as [| p | p]; try lia. apply binary_round_integer.
Qed.

Lemma zero_div_of_int (k : Z) :
  0 < k < 2 ^ 63 -> (0 / of_uint63 (Uint63.of_Z k))%float = 0%float.
Proof.
  intros Hk. apply Prim2SF_inj. rewrite div_spec.
  destruct (of_uint63_positive k Hk) as [(m & e & ->) | ->]; reflexivity.
Qed.

End B64.

(** The loops over a constant window whose mean was computed exactly. *)
Lemma squaresLoop_constant (v : float) (n : nat) :
  is_finite v = true -> squaresLoop (repeat v n) v = 0%float.
Proof.
  intros Hf. unfold squaresLoop.
  assert (Hstep : forall k acc, acc = 0%float ->
            fold_left (fun sum x => (sum + Pow2 (x - v))%float) (repeat v k) acc
            = 0%float).
  { induction k as [| k IH]; intros acc ->; [reflexivity |].
    cbn [repeat fold_left]. apply IH.
    now rewrite (B64.sub_diag v Hf). }
  now apply Hstep.
Qed.

Lemma maxInt64_lt : maxInt64 < 2 ^ 63.
Proof. reflexivity. Qed.

(** ** Constant windows *)

(** A constant window whose mean was computed exactly has deviation 0. *)
Lemma constant_window_stdDev (v : float) (rpsValues : list float) :
  Forall (fun x => x = v) rpsValues ->
  is_finite v = true ->
  len rpsValues <= maxInt64 ->
  (2 <= len rpsValues -> calculateAverage rpsValues = v) ->
  calculateStandardDeviation rpsValues (calculateAverage rpsValues) = 0%float.
Proof.
  intros Hall Hfin Hlen Hmean. unfold calculateStandardDeviation.
  destruct (Z.leb_spec (len rpsValues) 1) as [Hshort | Hlong]; [reflexivity |].
  rewrite Hmean by lia.
  assert (Hrep : rpsValues = repeat v (List.length rpsValues)).
  { apply Forall_eq_repeat. eapply Forall_impl; [| exact Hall]. auto. }
  rewrite Hrep at 1. rewrite (squaresLoop_constant v _ Hfin).
  unfold ofInt.
  rewrite B64.zero_div_of_int by (pose proof maxInt64_lt; lia).
  reflexivity.
Qed.

(** C6, as the code has it.  When all the values of a window are the same
    finite number and the mean is computed exactly (it is that number), every
    deviation is zero, the standard deviation is exactly 0 and the test
    reports no anomaly, whatever the value under test.  The goroutine tests a
    metric against the window that already holds it: when the window it
    reads, the new metric included, is such a constant window, the anomaly
    counter stays as it was.  Windows of fewer than two values are covered by
    the length guards. *)
Theorem constant_window_not_anomalous (v : float) (rpsValues : list float) :
  Forall (fun x => x = v) rpsValues ->
  is_finite v = true ->
  len rpsValues <= maxInt64 ->
  (2 <= len rpsValues -> calculateAverage rpsValues = v) ->
  calculateStandardDeviation rpsValues (calculateAverage rpsValues) = 0%float
  /\ (forall currentValue : float, evaluate currentValue rpsValues = None)
  /\ (forall (st : AppState) (m : Metric) (w : World),
        0 < windowSize st <= maxInt64 ->
        healthy w ->
        map RPS (lastn (Z.to_nat (windowSize st)) (window w ++ [m])) = rpsValues ->
        let w' := snd (goroutine st m w) in
        map RPS (window w') = rpsValues
        /\ anomalyCounter (registry w') = anomalyCounter (registry w)).
Proof.
  intros Hall Hfin Hlen Hmean.
  pose proof (constant_window_stdDev v rpsValues Hall Hfin Hlen Hmean) as Hsd.
  assert (Hnone : forall currentValue : float, evaluate currentValue rpsValues = None).
  { intros currentValue. unfold evaluate.
    destruct (2 <=? len rpsValues); [| reflexivity]. now rewrite Hsd. }
  split; [exact Hsd |]. split; [exact Hnone |].
  intros st m w HW Hh Hsnap. cbv zeta.
  destruct (goroutine_rpush_ok st m w HW (healthy_fails w 0 Hh)) as (Hwin & _ & _ & Hreg & _).
  rewrite (healthy_fails w 1 Hh) in Hwin. rewrite (healthy_fails w 2 Hh) in Hreg.
  rewrite Hreg, Hwin. unfold exported. cbn [anomalyCounter].
  rewrite Hsnap. split; [reflexivity |]. now rewrite Hnone.
Qed.

Lemma constant_window_not_anomalous_witness :
  let rpsValues := repeat 10%float 6 in
  let w := runAll defaultState (map (metricAt 1 35) (repeat 10%float 5)) emptyWorld in
  let w' := snd (goroutine defaultState (metricAt 2 35 10) w) in
  calculateStandardDeviation rpsValues (calculateAverage rpsValues) = 0%float
  /\ evaluate 10%float rpsValues = None
  /\ map RPS (window w') = rpsValues
  /\ anomalyCounter (registry w') = anomalyCounter (registry w).
Proof.
  cbv zeta.
  destruct (constant_window_not_anomalous 10 (repeat 10%float 6)) as (Hsd & Hnone & Hrun).
  - repeat constructor.
  - reflexivity.
  - unfold maxInt64. cbn. lia.
  - intros _. reflexivity.
  - split; [exact Hsd |]. split; [apply Hnone |].
    apply (Hrun defaultState (metricAt 2 35 10)
             (runAll defaultState (map (metricAt 1 35) (repeat 10%float 5)) emptyWorld)).
    + unfold maxInt64. cbn. lia.
    + vm_compute. constructor.
    + reflexivity.
Defined.

(** Decimal literals that are not binary fractions denote the nearest
    binary64 value, as they do in Go and in JSON decoding. *)
#[local] Set Warnings "-inexact-float".

(** C6, as stated, fails, in two ways.  Three copies of 0.1 add up to
    0.30000000000000004: after three such requests the window is constant,
    yet the computed mean is not 0.1 and the standard deviation is about
    1.7e-17 and not 0, so the guard lets the division through and a value of
    50 tested against that window is reported.  And the example of the claim
    does not reach the guard: five requests with 10 and then one with 50 make
    the goroutine read [10, 10, 10, 10, 10, 50], whose standard deviation is
    16.33, and the 50 is counted as an anomaly with a z-score of 2.04. *)
Lemma constant_window_rounding :
  let rpsValues := [0.1; 0.1; 0.1]%float in
  let mean := calculateAverage rpsValues in
  let stdDev := calculateStandardDeviation rpsValues mean in
  let w := runAll defaultState (map (metricAt 1 35) rpsValues) emptyWorld in
  let tens := [10; 10; 10; 10; 10]%float in
  let w10 := runAll defaultState (map (metricAt 1 35) tens) emptyWorld in
  let w50 := snd (goroutine defaultState (metricAt 2 35 50) w10) in
  ((mean =? 0.1)%float = false
   /\ (stdDev =? 0)%float = false
   /\ evaluate 50%float rpsValues <> None
   /\ map RPS (window w) = rpsValues
   /\ (rollingAvgGauge (registry w) =? 0.1)%float = false)
  /\ (map RPS (window w10) = tens
      /\ anomalyCounter (registry w10) = 0%N
      /\ map RPS (window w50) = (tens ++ [50])%float
      /\ anomalyCounter (registry w50) = 1%N
      /\ between 16.32 16.34
           (calculateStandardDeviation (tens ++ [50])%float
              (calculateAverage (tens ++ [50])%float)) = true
      /\ match evaluate 50%float (tens ++ [50])%float with
         | Some a => between 2.04 2.05 (a_zScore a) = true
         | None => False
         end).
Proof.
  cbv zeta. split.
  - repeat split; try (vm_compute; reflexivity).
    vm_compute. discriminate.
  - repeat split; vm_compute; reflexivity.
Qed.

(** ** The scenario of the specification *)

(** C4, as the code has it.  On the window [10, 12, 9, 11, 10, 60] the mean
    is 18.67 to two decimals, the sample standard deviation is 20.27 and the
    z-score of 60 is 2.04; 60 is reported as an anomaly, and the anomaly
    counter moves when the metric goes through the goroutine.  With 11 in
    place of 60 there is no anomaly. *)
Theorem scenario_60_is_anomalous :
  let history := [10; 12; 9; 11; 10]%float in
  let rpsValues := history ++ [60]%float in
  let mean := calculateAverage rpsValues in
  let stdDev := calculateStandardDeviation rpsValues mean in
  let zScore := ((60 - mean) / stdDev)%float in
  let w := {| redis := {| request_count := Some 5;
                          metrics := map (metricAt 1 35) history |};
              redisErrs := []; registry := registry emptyWorld; logs := [] |} in
  between 18.665 18.675 mean = true
  /\ between 20.265 20.275 stdDev = true
  /\ between 2.035 2.045 zScore = true
  /\ evaluate 60%float rpsValues
     = Some {| a_currentValue := 60%float; a_zScore := zScore;
               a_mean := mean; a_stdDev := stdDev |}
  /\ anomalyCounter (registry (snd (goroutine defaultState (metricAt 2 35 60) w))) = 1%N
  /\ evaluate 11%float (history ++ [11]%float) = None
  /\ anomalyCounter (registry (snd (goroutine defaultState (metricAt 2 35 11) w))) = 0%N.
Proof. cbv zeta. repeat split; vm_compute; reflexivity. Qed.

(** C4, as stated, fails on its figures: the sample standard deviation is
    not 19.8 (it is above 20.2) and the z-score is not 2.09 (it is below
    2.04), to the precision they are given with. *)
Lemma scenario_figures_are_off :
  let rpsValues := [10; 12; 9; 11; 10; 60]%float in
  let mean := calculateAverage rpsValues in
  let stdDev := calculateStandardDeviation rpsValues mean in
  let zScore := ((60 - mean) / stdDev)%float in
  ~ (between 19.75 19.85 stdDev = true /\ between 2.085 2.095 zScore = true)
  /\ (20.2 <? stdDev)%float = true
  /\ (zScore <? 2.04)%float = true.
Proof.
  cbv zeta. split; [| split; vm_compute; reflexivity].
  intros [H _]. vm_compute in H. discriminate.
Qed.

(** ** The statistics *)

(** The loops accumulate from the left, one rounded addition per value. *)
Lemma sumLoop_snoc (values : list float) (v : float) :
  sumLoop (values ++ [v]) = (sumLoop values + v)%float.
Proof. unfold sumLoop. now rewrite fold_left_app. Qed.

Lemma squaresLoop_snoc (values : list float) (mean v : float) :
  squaresLoop (values ++ [v]) mean
  = (squaresLoop values mean + Pow2 (v - mean))%float.
Proof. unfold squaresLoop. now rewrite fold_left_app. Qed.

(** C2, as the code has it.  The mean is 0.0 for the empty sequence and
    otherwise the float64 quotient of the running sum of the values, added
    from the left starting at 0.0, by [float64(n)].  The standard deviation
    is 0.0 for at most one value and otherwise the square root of the
    quotient of the running sum of [math.Pow(v - mean, 2)] by
    [float64(n - 1)]: the sample formula, with every operation rounded. *)
Theorem statistics_are_rounded_mean_and_deviation (values : list float) (mean v : float) :
  let n := len values in
  calculateAverage [] = 0%float
  /\ (1 <= n ->
      calculateAverage values
      = (fold_left PrimFloat.add values 0 / ofInt n)%float)
  /\ (n <= 1 -> calculateStandardDeviation values mean = 0%float)
  /\ (2 <= n ->
      calculateStandardDeviation values mean
      = PrimFloat.sqrt
          (fold_left (fun sum x => sum + Pow2 (x - mean)) values 0
           / ofInt (n - 1))%float)
  /\ sumLoop (values ++ [v]) = (sumLoop values + v)%float
  /\ squaresLoop (values ++ [v]) mean
     = (squaresLoop values mean + Pow2 (v - mean))%float.
Proof.
  cbv zeta. split; [reflexivity |].
  split; [apply calculateAverage_formula |].
  split.
  - intros Hn. unfold calculateStandardDeviation.
    destruct (Z.leb_spec (len values) 1) as [_ | Hlt]; [reflexivity | lia].
  - split; [apply calculateStandardDeviation_formula |].
    split; [apply sumLoop_snoc | apply squaresLoop_snoc].
Qed.

(** C2, as stated, fails: the code computes in float64, and what it returns
    is in general neither the arithmetic mean nor the sample standard
    deviation of its arguments.  For three copies of the float64 nearest to
    0.1 the mean returned is another number, and the deviation returned is
    not 0.  The mean of two finite values can be infinite, and it depends on
    the order of the values: for 2^53, 1 and -2^53, whose mean is a third, the
    code returns 0, and a third (rounded) when the 1 comes last.  The square
    of a deviation is not always the rounded product: where it is subnormal,
    [math.Pow] rounds twice. *)
Lemma statistics_are_not_exact :
  let tenth := 0.1%float in
  let d := 0x1.48a7f000ba8dcp-520%float in
  (calculateAverage [tenth; tenth; tenth] =? tenth)%float = false
  /\ (0 <? calculateStandardDeviation [tenth; tenth; tenth]
            (calculateAverage [tenth; tenth; tenth]))%float = true
  /\ is_finite 1e308 = true
  /\ calculateAverage [1e308; 1e308]%float = infinity
  /\ calculateAverage [0x1p53; 1; -0x1p53]%float = 0%float
  /\ between 0.333 0.334 (calculateAverage [0x1p53; -0x1p53; 1]%float) = true
  /\ (Pow2 d =? d * d)%float = false.
Proof. cbv zeta. repeat split; vm_compute; reflexivity. Qed.

(** * Further properties of the service *)

(** ** What a request can and cannot change *)

(** Whatever the Redis failures, the goroutine leaves the durable counter,
    the request counter and the two instantaneous gauges alone, moves the
    anomaly counter by at most one, and only uses up coming fates. *)
Lemma goroutine_frame (st : AppState) (m : Metric) (w : World) :
  let w' := snd (goroutine st m w) in
  request_count (redis w') = request_count (redis w)
  /\ requestCounter (registry w') = requestCounter (registry w)
  /\ cpuGauge (registry w') = cpuGauge (registry w)
  /\ rpsGauge (registry w') = rpsGauge (registry w)
  /\ (anomalyCounter (registry w') = anomalyCounter (registry w)
      \/ anomalyCounter (registry w') = (anomalyCounter (registry w) + 1)%N)
  /\ exists k, redisErrs w' = skipn k (redisErrs w).
Proof.
  destruct w as [rd errs rg lg]. cbv zeta.
  unfold goroutine, bind, RPush, LTrim, LRange, redisDo, redisRPush, redisLTrim,
    redisLRange, logPrintf, ret. cbn.
  destruct errs as [| b0 [| b1 [| b2 errs]]];
    repeat match goal with b : bool |- _ => destruct b end; cbn;
    rewrite ?analyzeWindow_eq; cbn; unfold exported; cbn;
    repeat split; auto;
    try (destruct (evaluate _ _); auto);
    first [ now exists 1%nat | now exists 2%nat | now exists 3%nat ].
Qed.

Lemma skipn_healthy (k : nat) (errs errs' : list bool) :
  errs' = skipn k errs ->
  Forall (fun b => b = false) errs -> Forall (fun b => b = false) errs'.
Proof.
  intros -> Hall. rewrite Forall_forall in *. intros b Hb. apply Hall.
  rewrite <- (firstn_skipn k errs). apply in_or_app. now right.
Qed.

(** The handler alone: the window, the rolling average and the anomaly
    counter are never touched; a POST moves the two request counters
    together, by one when [INCR] succeeds and not at all when it fails;
    any other method changes nothing. *)
Lemma handleAnalyze_frame (st : AppState) (r : Request) (w : World) :
  let w' := snd (handleAnalyze st r w) in
  window w' = window w
  /\ anomalyCounter (registry w') = anomalyCounter (registry w)
  /\ rollingAvgGauge (registry w') = rollingAvgGauge (registry w)
  /\ (exists k, redisErrs w' = skipn k (redisErrs w))
  /\ if isPost r then
       match fst (Incr w) with
       | Ok n =>
           n = count w + 1 /\ count w' = n
           /\ requestCounter (registry w') = (requestCounter (registry w) + 1)%N
       | Err _ =>
           redis w' = redis w
           /\ requestCounter (registry w') = requestCounter (registry w)
       end
     else w' = w.
Proof.
  destruct w as [rd errs rg lg]. cbv zeta.
  unfold handleAnalyze, isPost, window, count.
  destruct (String.eqb (Method r) "POST"); cbv beta iota delta [negb].
  2: { unfold ret. cbn. repeat split; auto. now exists 0%nat. }
  unfold bind, Incr, redisDo, redisIncr, logPrintf, requestCounter_Inc,
    cpuGauge_Set, rpsGauge_Set, updRegistry, ret. cbn.
  destruct (match errs with [] => false | b :: _ => b end); cbn.
  - repeat split; auto. now exists 1%nat.
  - destruct (_ =? maxInt64); cbn.
    + repeat split; auto. now exists 1%nat.
    + destruct (Decode (body r)); cbn; repeat split; auto; now exists 1%nat.
Qed.

Lemma serve_eq (st : AppState) (r : Request) (w : World) :
  serve st r w
  = (fst (fst (handleAnalyze st r w)),
     match snd (fst (handleAnalyze st r w)) with
     | Some m => snd (goroutine st m (snd (handleAnalyze st r w)))
     | None => snd (handleAnalyze st r w)
     end).
Proof.
  unfold serve, bind. destruct (handleAnalyze st r w) as [[resp go] w1]. cbn.
  destruct go as [m |]; [| reflexivity].
  destruct (goroutine st m w1) as [[] w2]. reflexivity.
Qed.

(** One request: the durable count and the exported request counter move
    together, by one exactly for a POST whose [INCR] succeeds. *)
Lemma serve_step (st : AppState) (r : Request) (w : World) :
  let w' := snd (serve st r w) in
  let d := if isPost r then match fst (Incr w) with Ok _ => 1 | Err _ => 0 end
           else 0 in
  count w' = count w + d
  /\ Z.of_N (requestCounter (registry w')) = Z.of_N (requestCounter (registry w)) + d
  /\ (anomalyCounter (registry w) <= anomalyCounter (registry w')
      <= anomalyCounter (registry w) + 1)%N
  /\ exists k, redisErrs w' = skipn k (redisErrs w).
Proof.
  cbv zeta. rewrite serve_eq. cbn [snd].
  pose proof (handleAnalyze_frame st r w) as Hh. cbv zeta in Hh.
  destruct Hh as (_ & Han & _ & (k1 & Hk1) & Hpost).
  set (w1 := snd (handleAnalyze st r w)) in *.
  assert (Hw1 : count w1 = count w
                  + (if isPost r then match fst (Incr w) with Ok _ => 1 | Err _ => 0 end
                     else 0)
                /\ Z.of_N (requestCounter (registry w1))
                   = Z.of_N (requestCounter (registry w))
                     + (if isPost r then match fst (Incr w) with Ok _ => 1 | Err _ => 0 end
                        else 0)).
  { destruct (isPost r).
    - destruct (fst (Incr w)) as [n | e].
      + destruct Hpost as (Hn & Hc & Hrc). rewrite Hc, Hn, Hrc. split; lia.
      + destruct Hpost as (Hrd & Hrc). unfold count. rewrite Hrd, Hrc. split; lia.
    - rewrite Hpost. split; lia. }
  destruct Hw1 as (Hc1 & Hr1).
  destruct (snd (fst (handleAnalyze st r w))) as [m |].
  - pose proof (goroutine_frame st m w1) as Hg. cbv zeta in Hg.
    destruct Hg as (Hrc & Hreq & _ & _ & Hanom & (k2 & Hk2)).
    unfold count in *. rewrite Hrc, Hreq. repeat split; auto.
    + rewrite <- Han. destruct Hanom as [-> | ->]; lia.
    + rewrite <- Han. destruct Hanom as [-> | ->]; lia.
    + exists (k2 + k1)%nat. now rewrite Hk2, Hk1, skipn_skipn.
  - repeat split; auto.
    + rewrite Han. lia.
    + rewrite Han. lia.
    + now exists k1.
Qed.

Lemma posts_cons (r : Request) (rs : list Request) :
  posts (r :: rs) = (if isPost r then 1 else 0) + posts rs.
Proof.
  unfold posts, len. cbn [filter]. destruct (isPost r); cbn [List.length]; lia.
Qed.

Lemma posts_nonneg (rs : list Request) : 0 <= posts rs.
Proof. unfold posts, len. lia. Qed.

(** X1. Over any sequence of requests, with any Redis failures among them,
    the durable request count and the exported request counter advance by
    the same amount, which is at most the number of POSTs; neither counter
    ever decreases, and the anomaly counter grows by at most one per
    request. *)
Theorem request_counters_move_together (st : AppState) (rs : list Request) (w : World) :
  let w' := serveAll st rs w in
  count w' - count w
  = Z.of_N (requestCounter (registry w')) - Z.of_N (requestCounter (registry w))
  /\ 0 <= count w' - count w <= posts rs
  /\ (anomalyCounter (registry w) <= anomalyCounter (registry w')
      <= anomalyCounter (registry w) + N.of_nat (List.length rs))%N.
Proof.
  cbv zeta. revert w. induction rs as [| r rs IH]; intros w.
  - cbn. unfold posts, len. cbn. lia.
  - cbn [serveAll fold_left]. fold (serveAll st rs (snd (serve st r w))).
    pose proof (serve_step st r w) as Hs. cbv zeta in Hs.
    destruct Hs as (Hc & Hrc & Han & _).
    specialize (IH (snd (serve st r w))). destruct IH as (IH1 & IH2 & IH3).
    rewrite posts_cons. cbn [List.length].
    assert (Hd : 0 <= (if isPost r
                       then match fst (Incr w) with Ok _ => 1 | Err _ => 0 end
                       else 0) <= (if isPost r then 1 else 0))
      by (destruct (isPost r); [destruct (fst (Incr w)) |]; lia).
    repeat split; lia.
Qed.

Lemma Incr_healthy (w : World) :
  fails w 0 = false -> count w < maxInt64 -> fst (Incr w) = Ok (count w + 1).
Proof.
  destruct w as [rd errs rg lg]. unfold fails, count, Incr, redisDo, redisIncr. cbn.
  intros Hf Hlt. destruct errs as [| b errs]; cbn in *; subst;
    destruct (Z.eqb_spec (match request_count rd with Some v => v | None => 0 end)
                maxInt64); try lia; reflexivity.
Qed.




(** ** The accepted path *)

(** An accepted POST, in closed form. *)
Lemma handleAnalyze_accepted (st : AppState) (r : Request) (m : Metric) (w : World) (n : Z) :
  Method r = "POST"%string ->
  Decode (body r) = Some m ->
  fst (Incr w) = Ok n ->
  handleAnalyze st r w
  = ({| status := StatusAccepted; message := "Metric accepted for processing" |},
     Some m,
     {| redis := {| request_count := Some n; metrics := metrics (redis w) |};
        redisErrs := tl (redisErrs w);
        registry := {| requestCounter := requestCounter (registry w) + 1;
                       anomalyCounter := anomalyCounter (registry w);
                       cpuGauge := CPU m; rpsGauge := RPS m;
                       rollingAvgGauge := rollingAvgGauge (registry w) |};
        logs := logs w ++ [LogIncremented n] |}).
Proof.
  intros Hm Hd Hi. destruct w as [rd errs rg lg].
  unfold handleAnalyze. rewrite Hm, Hd.
  change (String.eqb "POST" "POST") with true. cbv beta iota delta [negb].
  revert Hi.
  unfold bind, Incr, redisDo, redisIncr, logPrintf, requestCounter_Inc,
    cpuGauge_Set, rpsGauge_Set, updRegistry, ret. cbn.
  destruct (match errs with [] => false | b :: _ => b end); cbn; [discriminate |].
  destruct (_ =? maxInt64); cbn; [discriminate |].
  intros [= <-]. reflexivity.
Qed.

(** X3. A 202 answer does not mean the observation was recorded.  For a
    POST that decodes and whose [INCR] succeeds, the answer is 202, the
    request counter has moved and the CPU and RPS gauges show the submitted
    values, whatever happens to the Redis commands of the goroutine; when
    its append fails, the window, the rolling average and the anomaly
    counter are as they were before the request. *)
Theorem accepted_is_not_recorded
    (st : AppState) (r : Request) (m : Metric) (w : World) (n : Z) :
  Method r = "POST"%string ->
  Decode (body r) = Some m ->
  fst (Incr w) = Ok n ->
  let out := serve st r w in
  let rg' := registry (snd out) in
  status (fst out) = StatusAccepted
  /\ count (snd out) = n
  /\ requestCounter rg' = (requestCounter (registry w) + 1)%N
  /\ cpuGauge rg' = CPU m /\ rpsGauge rg' = RPS m
  /\ (fails w 1 = true ->
      window (snd out) = window w
      /\ rollingAvgGauge rg' = rollingAvgGauge (registry w)
      /\ anomalyCounter rg' = anomalyCounter (registry w)
      /\ In (LogRPushError Unavailable) (logs (snd out))).
Proof.
  intros Hm Hd Hi. cbv zeta. rewrite serve_eq.
  rewrite (handleAnalyze_accepted st r m w n Hm Hd Hi). cbn [fst snd].
  set (w1 := {| redis := _; redisErrs := tl (redisErrs w); registry := _; logs := _ |}).
  pose proof (goroutine_frame st m w1) as Hg. cbv zeta in Hg.
  destruct Hg as (Hrc & Hreq & Hcpu & Hrps & _).
  split; [reflexivity |]. unfold count. rewrite Hrc, Hreq, Hcpu, Hrps.
  do 4 (split; [reflexivity |]).
  intros Hpush.
  assert (Hpush1 : fails w1 0 = true)
    by (unfold fails in *; cbn; destruct (redisErrs w); [discriminate | exact Hpush]).
  rewrite (goroutine_rpush_fails st m w1 Hpush1). cbn.
  do 3 (split; [reflexivity |]).
  rewrite !in_app_iff. cbn. tauto.
Qed.

Lemma accepted_is_not_recorded_witness :
  let m := metricAt 7 35 1000 in
  let w := worldWith 3 (metricAt 1 30 10) [false; true] in
  let out := serve defaultState (post (Encoded m)) w in
  status (fst out) = 202
  /\ count (snd out) = 4
  /\ cpuGauge (registry (snd out)) = 35%float
  /\ rpsGauge (registry (snd out)) = 1000%float
  /\ window (snd out) = window w
  /\ anomalyCounter (registry (snd out)) = anomalyCounter (registry w).
Proof.
  pose proof (accepted_is_not_recorded defaultState (post (Encoded (metricAt 7 35 1000)))
                (metricAt 7 35 1000) (worldWith 3 (metricAt 1 30 10) [false; true]) 4
                eq_refl eq_refl eq_refl) as H.
  cbv zeta in H. destruct H as (Hs & Hc & _ & Hcpu & Hrps & Hlost).
  destruct (Hlost eq_refl) as (Hwin & _ & Han & _).
  cbv zeta. repeat split; assumption.
Defined.

(** ** The goroutine, step by step *)

Lemma lastn_snoc {A : Type} (n : nat) (l : list A) (a : A) :
  (0 < n)%nat -> lastn n (l ++ [a]) = lastn (n - 1) l ++ [a].
Proof.
  intros Hn. unfold lastn. rewrite length_app, skipn_app. cbn [List.length].
  replace (List.length l + 1 - n)%nat with (List.length l - (n - 1))%nat by lia.
  replace (List.length l - (n - 1) - List.length l)%nat with 0%nat by lia.
  reflexivity.
Qed.

(** X4. When the append and the trim succeed but the snapshot cannot be
    read, the observation is in the window and nothing was computed from it:
    the registry (rolling average and anomaly counter included) is untouched
    and the failure is the only line logged. *)
Theorem snapshot_failure_skips_analysis (st : AppState) (m : Metric) (w : World) :
  0 < windowSize st <= maxInt64 ->
  fails w 0 = false -> fails w 1 = false -> fails w 2 = true ->
  let w' := snd (goroutine st m w) in
  window w' = lastn (Z.to_nat (windowSize st)) (window w ++ [m])
  /\ registry w' = registry w
  /\ logs w' = logs w ++ [LogLRangeError Unavailable].
Proof.
  intros HW. destruct w as [rd errs rg lg].
  unfold goroutine. rewrite (trim_bounds _ HW).
  unfold bind, RPush, LTrim, LRange, redisDo, redisRPush, redisLTrim,
    redisLRange, logPrintf, ret, fails, window. cbn.
  destruct errs as [| b0 [| b1 [| b2 errs]]]; cbn; intros H0 H1 H2; subst;
    try discriminate.
  cbn. rewrite (redisRange_last _ _ (proj1 HW)). auto.
Qed.

Lemma snapshot_failure_skips_analysis_witness :
  let m := metricAt 7 35 1000 in
  let w := worldWith 50 (metricAt 1 30 10) [false; false; true] in
  let w' := snd (goroutine defaultState m w) in
  window w' = lastn 50 (window w ++ [m])
  /\ registry w' = registry w
  /\ logs w' = logs w ++ [LogLRangeError Unavailable].
Proof.
  apply (snapshot_failure_skips_analysis defaultState (metricAt 7 35 1000)
           (worldWith 50 (metricAt 1 30 10) [false; false; true])).
  - unfold maxInt64. cbn. lia.
  - reflexivity.
  - reflexivity.
  - reflexivity.
Defined.

(** X5. When a goroutine runs from its append to its evaluation with no
    command of another goroutine in between (the schedule of [serve]), and
    its three commands succeed, the snapshot it evaluates ends with the
    metric under test: the value tested is part of its own baseline.  The
    rolling average exported is the mean of that snapshot, and the anomaly
    counter moves by one exactly when the test on it reports an anomaly. *)
Theorem tested_value_is_in_its_baseline (st : AppState) (m : Metric) (w : World) :
  0 < windowSize st <= maxInt64 ->
  fails w 0 = false -> fails w 1 = false -> fails w 2 = false ->
  let w' := snd (goroutine st m w) in
  let rpsValues := map RPS (window w') in
  window w' = lastn (Z.to_nat (windowSize st) - 1) (window w) ++ [m]
  /\ In (RPS m) rpsValues
  /\ rollingAvgGauge (registry w') = calculateAverage rpsValues
  /\ anomalyCounter (registry w')
     = (match evaluate (RPS m) rpsValues with
        | Some _ => anomalyCounter (registry w) + 1
        | None => anomalyCounter (registry w)
        end)%N.
Proof.
  intros HW H0 H1 H2. cbv zeta.
  destruct (goroutine_rpush_ok st m w HW H0) as (Hwin & _ & _ & Hreg & _).
  rewrite H1 in Hwin. rewrite H2 in Hreg.
  rewrite lastn_snoc in Hwin by lia.
  rewrite Hreg, Hwin. cbn. repeat split; auto.
  rewrite map_app, in_app_iff. cbn. auto.
Qed.

Lemma tested_value_is_in_its_baseline_witness :
  let m := metricAt 7 35 1000 in
  let w := worldWith 50 (metricAt 1 30 10) [] in
  let w' := snd (goroutine defaultState m w) in
  window w' = lastn 49 (window w) ++ [m]
  /\ In (RPS m) (map RPS (window w'))
  /\ rollingAvgGauge (registry w') = calculateAverage (map RPS (window w'))
  /\ anomalyCounter (registry w')
     = (match evaluate (RPS m) (map RPS (window w')) with
        | Some _ => anomalyCounter (registry w) + 1
        | None => anomalyCounter (registry w)
        end)%N.
Proof.
  apply (tested_value_is_in_its_baseline defaultState (metricAt 7 35 1000)
           (worldWith 50 (metricAt 1 30 10) [])).
  - unfold maxInt64. cbn. lia.
  - reflexivity.
  - reflexivity.
  - reflexivity.
Defined.

(** ** The count and health endpoints *)

(** X6. A GET on the count endpoint never touches the window, the registry
    or the log of the analysis.  When the read fails the answer is 500 and
    the store is unchanged; when the counter exists the answer is its value
    and the store is unchanged; when it is absent the handler writes 0 and
    answers 0, unless that write fails, in which case the answer is 500 and
    the counter is still absent. *)
Theorem count_endpoint_outcomes (r : Request) (w : World) :
  Method r = "GET"%string ->
  let out := countHandler r w in
  let reply := fst (fst out) in
  let w' := snd out in
  window w' = window w /\ registry w' = registry w /\ logs w' = logs w
  /\ (if fails w 0 then
        reply = Plain (http_Error "Error retrieving count" StatusInternalServerError)
        /\ redis w' = redis w
      else
        match request_count (redis w) with
        | Some c => reply = CountJSON c /\ redis w' = redis w
        | None =>
            if fails w 1 then
              reply = Plain (http_Error "Error initializing count"
                               StatusInternalServerError)
              /\ redis w' = redis w
            else reply = CountJSON 0 /\ request_count (redis w') = Some 0
        end).
Proof.
  intros Hm. destruct w as [rd errs rg lg]. cbv zeta.
  unfold countHandler. rewrite Hm.
  change (String.eqb "GET" "GET") with true. cbv beta iota delta [negb].
  unfold bind, Get, SetKey, redisDo, redisGet, redisSet, ret, fails, window. cbn.
  destruct errs as [| b0 [| b1 errs]]; cbn;
    repeat match goal with b : bool |- _ => destruct b end; cbn;
    destruct (request_count rd) eqn:Hrc; cbn; repeat split; auto;
    destruct rd; cbn in *; congruence.
Qed.

Lemma count_endpoint_outcomes_witness :
  let w := {| redis := {| request_count := None; metrics := [metricAt 1 30 10] |};
              redisErrs := [false; true]; registry := registry emptyWorld;
              logs := [] |} in
  let out := countHandler get w in
  fst (fst out) = Plain (http_Error "Error initializing count" 500)
  /\ redis (snd out) = redis w
  /\ window (snd out) = window w.
Proof.
  pose proof (count_endpoint_outcomes get
                {| redis := {| request_count := None; metrics := [metricAt 1 30 10] |};
                   redisErrs := [false; true]; registry := registry emptyWorld;
                   logs := [] |} eq_refl) as H.
  cbv zeta in H. destruct H as (Hwin & _ & _ & Hreply & Hrd).
  cbv zeta. repeat split; assumption.
Defined.

(** X7. A GET on the health endpoint always answers with the overall status
    "healthy", Redis reachable or not; the redis field is "unhealthy"
    exactly when the ping fails; and the store, the registry and the log are
    untouched. *)
Theorem health_endpoint_outcomes (now : Time) (r : Request) (w : World) :
  Method r = "GET"%string ->
  let out := healthHandler now r w in
  fst out = HealthJSON "healthy" (if fails w 0 then "unhealthy" else "healthy") now
  /\ redis (snd out) = redis w
  /\ registry (snd out) = registry w
  /\ logs (snd out) = logs w
  /\ redisErrs (snd out) = tl (redisErrs w).
Proof.
  intros Hm. destruct w as [rd errs rg lg]. cbv zeta.
  unfold healthHandler. rewrite Hm.
  change (String.eqb "GET" "GET") with true. cbv beta iota delta [negb].
  unfold bind, Ping, redisDo, redisPing, ret, fails. cbn.
  destruct errs as [| [|] errs]; cbn; auto.
Qed.

Lemma health_endpoint_outcomes_witness :
  let w := worldWith 3 (metricAt 1 30 10) [true] in
  let out := healthHandler 1700000000 get w in
  fst out = HealthJSON "healthy" "unhealthy" 1700000000
  /\ redis (snd out) = redis w
  /\ registry (snd out) = registry w
  /\ logs (snd out) = logs w
  /\ redisErrs (snd out) = [].
Proof.
  exact (health_endpoint_outcomes 1700000000 get
           (worldWith 3 (metricAt 1 30 10) [true]) eq_refl).
Defined.

(** ** Reading the environment *)

(** X8. [getEnv] returns the empty string only when the default is empty:
    a variable set to the empty string is taken as unset, even when a later
    binding of the same name has a value.  So the port and the Redis address
    that [main] settles are never empty. *)
Theorem getEnv_never_empty (env : Env) (key defaultValue : string) :
  (getEnv env key defaultValue = EmptyString
   <-> defaultValue = EmptyString /\ os_Getenv env key = EmptyString)
  /\ getEnv ((key, EmptyString) :: env) key defaultValue = defaultValue
  /\ port (main env) <> EmptyString
  /\ redisAddr (main env) <> EmptyString.
Proof.
  assert (Hiff : forall k d,
            getEnv env k d = EmptyString
            <-> d = EmptyString /\ os_Getenv env k = EmptyString).
  { intros k d. unfold getEnv.
    destruct (String.eqb_spec (os_Getenv env k) "") as [He | Hne].
    - rewrite He. tauto.
    - split; [intros H; contradiction | tauto]. }
  split; [apply Hiff |]. split.
  - unfold getEnv. cbn [os_Getenv]. rewrite String.eqb_refl. reflexivity.
  - split; cbn; intros H; apply Hiff in H; destruct H as [H _]; discriminate.
Qed.

(** ** The connection loop of [main] *)

Lemma leadingFailures_le (n : nat) (errs : list bool) :
  (leadingFailures n errs <= n)%nat.
Proof.
  revert errs. induction n as [| n IH]; intros errs; [cbn; lia |].
  destruct errs as [| [|] rest]; cbn; [lia | | lia].
  specialize (IH rest). lia.
Qed.

(** The loop connects exactly when one of the attempts it may make meets a
    ping that succeeds. *)
Lemma leadingFailures_lt (n : nat) (errs : list bool) :
  (leadingFailures n errs < n)%nat
  <-> exists j, (j < n)%nat /\ nth j errs false = false.
Proof.
  revert errs. induction n as [| n IH]; intros errs.
  - cbn. split; [lia | intros (j & Hj & _); lia].
  - destruct errs as [| [|] rest]; cbn [leadingFailures].
    + split; [intros _; exists 0%nat; split; [lia | reflexivity] | lia].
    + rewrite <- Nat.succ_lt_mono, IH. split.
      * intros (j & Hj & Hn). exists (S j). split; [lia | exact Hn].
      * intros (j & Hj & Hn). destruct j as [| j]; [discriminate |].
        exists j. split; [lia | exact Hn].
    + split; [intros _; exists 0%nat; split; [lia | reflexivity] | lia].
Qed.

Lemma connectLoop_outcome (n : nat) :
  forall (i : Z) (w : World),
    let f := leadingFailures n (redisErrs w) in
    let out := connectLoop n i w in
    fst (fst (fst out)) = (f <? n)%nat
    /\ snd (fst (fst out))
       = map (fun j => LogAttemptFailed (i + Z.of_nat j + 1) Unavailable) (seq 0 f)
         ++ (if (f <? n)%nat then [LogConnected] else [])
    /\ snd (fst out) = 2 * Z.of_nat f
    /\ snd out
       = {| redis := redis w;
            redisErrs := skipn (if (f <? n)%nat then S f else f) (redisErrs w);
            registry := registry w; logs := logs w |}.
Proof.
  induction n as [| n IH]; intros i w; destruct w as [rd errs rg lg].
  - cbn. auto.
  - cbv zeta. cbn [connectLoop]. unfold bind, Ping, redisDo, redisPing, ret.
    cbn [redisErrs redis registry logs tl].
    destruct errs as [| [|] rest]; cbn [leadingFailures]; try (cbn; auto; fail).
    cbv beta iota.
    specialize (IH (i + 1) {| redis := rd; redisErrs := rest; registry := rg;
                              logs := lg |}).
    cbv zeta in IH. cbn [redisErrs redis registry logs] in IH.
    destruct (connectLoop n (i + 1) _) as [[[c l] sl] w2].
    cbn [fst snd] in *. destruct IH as (-> & -> & -> & ->).
    set (f := leadingFailures n rest).
    change (S f <? S n)%nat with (f <? n)%nat.
    repeat split.
    + cbn [seq map]. rewrite <- seq_shift, map_map. cbn [app]. f_equal.
      * f_equal. lia.
      * f_equal. apply map_ext. intros j. f_equal. lia.
    + lia.
    + destruct (f <? n)%nat; reflexivity.
Qed.

(** X9. The connection loop of [main] pings at most five times and stops at
    the first ping that succeeds.  It reports a connection exactly when one
    of the first five pings succeeds; it sleeps two seconds after every
    failed ping, the last included, so at most ten seconds in all; it issues
    no ping after a success; and it changes nothing in the store. *)
Theorem connect_outcome (w : World) :
  let f := leadingFailures 5 (redisErrs w) in
  let out := connect w in
  let connected := fst (fst (fst out)) in
  (connected = true <-> exists j, (j < 5)%nat /\ fails w j = false)
  /\ snd (fst out) = 2 * Z.of_nat f
  /\ 0 <= snd (fst out) <= 10
  /\ redisErrs (snd out) = skipn (if connected then S f else 5) (redisErrs w)
  /\ redis (snd out) = redis w /\ registry (snd out) = registry w
  /\ last (snd (fst (fst out))) LogConnected
     = (if connected then LogConnected else LogNotConnected).
Proof.
  cbv zeta. unfold connect, bind.
  pose proof (connectLoop_outcome 5 0 w) as H. cbv zeta in H.
  pose proof (leadingFailures_le 5 (redisErrs w)) as Hle.
  pose proof (leadingFailures_lt 5 (redisErrs w)) as Hlt.
  destruct (connectLoop 5 0 w) as [[[c l] sl] w2]. cbn [fst snd] in H.
  destruct H as (Hc & Hl & Hs & Hw).
  set (f := leadingFailures 5 (redisErrs w)) in *. subst c l sl w2.
  destruct (Nat.ltb_spec f 5) as [Hf | Hf]; cbn [fst snd]; unfold ret;
    cbn [fst snd redis redisErrs registry].
  - repeat split;
      solve [ lia | reflexivity | intros _; apply Hlt; exact Hf
            | rewrite last_last; reflexivity ].
  - assert (Hf5 : f = 5%nat) by lia.
    repeat split;
      solve [ lia | reflexivity | discriminate
            | intros Hex; apply Hlt in Hex; lia
            | rewrite Hf5; reflexivity
            | rewrite last_last; reflexivity ].
Qed.

(** ** The window over a sequence of requests *)

Lemma handleAnalyze_spawned (st : AppState) (r : Request) (w : World) :
  snd (fst (handleAnalyze st r w))
  = if isPost r then
      match fst (Incr w) with Ok _ => Decode (body r) | Err _ => None end
    else None.
Proof.
  unfold handleAnalyze, isPost.
  destruct (String.eqb (Method r) "POST"); cbv beta iota delta [negb];
    [| reflexivity].
  unfold bind. destruct (Incr w) as [[n | e] w1]; cbn [fst]; [| reflexivity].
  unfold logPrintf, requestCounter_Inc, cpuGauge_Set, rpsGauge_Set, updRegistry, ret.
  destruct (Decode (body r)); reflexivity.
Qed.

Lemma serve_window (st : AppState) (r : Request) (w : World) :
  0 < windowSize st <= maxInt64 ->
  healthy w ->
  count w < maxInt64 ->
  let w' := snd (serve st r w) in
  healthy w'
  /\ window w'
     = match acceptedMetric r with
       | Some m => lastn (Z.to_nat (windowSize st)) (window w ++ [m])
       | None => window w
       end.
Proof.
  intros HW Hh Hc. cbv zeta. split.
  { pose proof (serve_step st r w) as Hs. cbv zeta in Hs.
    destruct Hs as (_ & _ & _ & (k & Hk)).
    unfold healthy. eapply skipn_healthy; [exact Hk | exact Hh]. }
  rewrite serve_eq. cbn [snd]. rewrite handleAnalyze_spawned.
  unfold acceptedMetric.
  pose proof (handleAnalyze_frame st r w) as Hf. cbv zeta in Hf.
  destruct Hf as (Hwin & _ & _ & (k & Hk) & _).
  destruct (isPost r); [| exact Hwin].
  rewrite (Incr_healthy w (healthy_fails w 0 Hh) Hc).
  destruct (Decode (body r)) as [m |]; [| exact Hwin].
  set (w1 := snd (handleAnalyze st r w)) in *.
  assert (Hh1 : healthy w1)
    by (unfold healthy; eapply skipn_healthy; [exact Hk | exact Hh]).
  destruct (goroutine_rpush_ok st m w1 HW (healthy_fails w1 0 Hh1)) as (Hg & _).
  rewrite (healthy_fails w1 1 Hh1) in Hg. now rewrite Hg, Hwin.
Qed.

(** X11. When Redis answers every command and each request is served
    before the next arrives, the window holds the last [windowSize] accepted
    observations in order of arrival: requests that are not POSTs, and POSTs
    whose body does not decode, leave no trace in it. *)
Theorem window_holds_last_accepted (st : AppState) (rs : list Request) (w : World) :
  0 < windowSize st <= maxInt64 ->
  healthy w ->
  count w + posts rs <= maxInt64 ->
  len (window w) <= windowSize st ->
  window (serveAll st rs w)
  = lastn (Z.to_nat (windowSize st)) (window w ++ accepted rs).
Proof.
  intros HW. revert w. induction rs as [| r rs IH]; intros w Hh Hc Hlen.
  - cbn. rewrite app_nil_r. symmetry. apply lastn_all. unfold len in Hlen. lia.
  - cbn [serveAll fold_left]. fold (serveAll st rs (snd (serve st r w))).
    rewrite posts_cons in Hc. pose proof (posts_nonneg rs) as Hnn.
    pose proof (serve_step st r w) as Hs. cbv zeta in Hs.
    destruct Hs as (Hcount & _).
    assert (Hlt : isPost r = true -> count w < maxInt64)
      by (intros Hp; rewrite Hp in Hc; lia).
    assert (Hstep : healthy (snd (serve st r w))
                    /\ window (snd (serve st r w))
                       = match acceptedMetric r with
                         | Some m => lastn (Z.to_nat (windowSize st)) (window w ++ [m])
                         | None => window w
                         end).
    { destruct (isPost r) eqn:Hp.
      - pose proof (serve_window st r w HW Hh (Hlt eq_refl)) as H. exact H.
      - split.
        + pose proof (serve_step st r w) as Hs. cbv zeta in Hs.
          destruct Hs as (_ & _ & _ & (k & Hk)).
          unfold healthy. eapply skipn_healthy; [exact Hk | exact Hh].
        + rewrite serve_eq. cbn [snd]. rewrite handleAnalyze_spawned.
          unfold acceptedMetric. rewrite Hp.
          pose proof (handleAnalyze_frame st r w) as Hf. cbv zeta in Hf.
          rewrite Hp in Hf. destruct Hf as (_ & _ & _ & _ & ->). reflexivity. }
    destruct Hstep as (Hh' & Hwin).
    rewrite IH.
    + rewrite Hwin. unfold accepted. cbn [flat_map].
      fold (accepted rs).
      destruct (acceptedMetric r) as [m |]; cbn [app].
      * rewrite lastn_app_lastn, <- app_assoc. reflexivity.
      * reflexivity.
    + exact Hh'.
    + assert (Hd : (if isPost r
                    then match fst (Incr w) with Ok _ => 1 | Err _ => 0 end
                    else 0) <= (if isPost r then 1 else 0))
        by (destruct (isPost r); [destruct (fst (Incr w)) |]; lia).
      lia.
    + rewrite Hwin. destruct (acceptedMetric r) as [m |]; [| exact Hlen].
      unfold len. rewrite length_lastn. lia.
Qed.

Lemma window_holds_last_accepted_witness :
  let rs := [post (Encoded (metricAt 1 35 10)); get; post (Malformed "{");
             post (Encoded (metricAt 2 35 12))] in
  window (serveAll defaultState rs emptyWorld)
  = lastn 50 (window emptyWorld ++ [metricAt 1 35 10; metricAt 2 35 12]).
Proof.
  apply (window_holds_last_accepted defaultState
           [post (Encoded (metricAt 1 35 10)); get; post (Malformed "{");
            post (Encoded (metricAt 2 35 12))] emptyWorld).
  - unfold maxInt64. cbn. lia.
  - apply Forall_nil.
  - unfold maxInt64. cbn. lia.
  - cbn. lia.
Defined.
